(** * Navigation façade of LibCarla (carla/nav/Navigation.cpp)

    A shallow embedding of [carla::nav::Navigation]: the binary navmesh
    loader, the path query orchestration, the walker façade over the crowd
    pool and the random location sampler.

    Modelling conventions.
    - Bytes are [list Byte.byte]; integers read by [memcpy] from the buffer
      are decoded little-endian (native x86 layout), [int] as signed 32 bit,
      [dtTileRef] as unsigned 64 bit, [unsigned long] positions as 64-bit
      unsigned with their wrap-around written out.
    - A read outside the buffer ([content[pos]] with [memcpy] past the end)
      or a null dereference is undefined behaviour; the embedding is total
      and returns the outcome [UB] for it.
    - [float] values are rationals [Q]; rounding is not modelled.  [fmodf]
      is exact in IEEE arithmetic and is defined here; [sqrtf] and
      [atan2f] come from the C math library and are parameters.
    - The Detour engine (surface, query object, crowd pool) is an external
      collaborator.  Its surface and query operations are parameters
      ([DetourEngine]); the crowd pool operations used by the façade are
      modelled from the spec. *)

From Stdlib Require Import ZArith QArith Lia Lqa.
From stdpp Require Import base list gmap.

Open Scope Z_scope.

(** ** Outcomes of a C++ call: a value, or undefined behaviour *)

Inductive Outcome (A : Type) : Type :=
| Ret (a : A)
| UB.
Arguments Ret {A} a.
Arguments UB {A}.

Definition bind_out {A B} (m : Outcome A) (k : A -> Outcome B) : Outcome B :=
  match m with Ret a => k a | UB => UB end.

(** ** Bytes and native integers *)

Definition byte_val (b : Byte.byte) : Z := Z.of_N (Byte.to_N b).

(** Little-endian value of a byte sequence. *)
Fixpoint le_value (bs : list Byte.byte) : Z :=
  match bs with
  | [] => 0
  | b :: bs' => byte_val b + 256 * le_value bs'
  end.

(** [int] (signed 32 bit) read from four bytes. *)
Definition to_int32 (u : Z) : Z := if u <? 2 ^ 31 then u else u - 2 ^ 32.

Definition ulong_mod : Z := 2 ^ 64.

(** [static_cast<size_t>] / [static_cast<unsigned long>] of an [int]. *)
Definition to_ulong (v : Z) : Z := v mod ulong_mod.

(** [memcpy(dst, &content[pos], n)]: the [n] bytes at [pos], or undefined
    behaviour when [content[pos]] or the copied range leaves the vector. *)
Definition read_bytes (content : list Byte.byte) (pos n : Z) : Outcome (list Byte.byte) :=
  if (pos + n <=? Z.of_nat (length content)) && (0 <=? pos) && (0 <=? n)
  then Ret (firstn (Z.to_nat n) (skipn (Z.to_nat pos) content))
  else UB.

(** ** Binary navmesh layout (packed structs) *)

(** [sizeof(dtNavMeshParams)]: [float orig[3]; float tileWidth, tileHeight;
    int maxTiles, maxPolys]. *)
Definition sizeof_dtNavMeshParams : Z := 28.
(** [sizeof(NavMeshSetHeader)]: [magic], [version], [numTiles], [params]. *)
Definition sizeof_NavMeshSetHeader : Z := 12 + sizeof_dtNavMeshParams.
(** [sizeof(NavMeshTileHeader)]: [dtTileRef tileRef] (64 bit, as in the
    file format of the spec) and [int dataSize]. *)
Definition sizeof_NavMeshTileHeader : Z := 8 + 4.

(** ['M'<<24 | 'S'<<16 | 'E'<<8 | 'T']. *)
Definition NAVMESHSET_MAGIC : Z :=
  Z.lor (Z.shiftl 77 24) (Z.lor (Z.shiftl 83 16) (Z.lor (Z.shiftl 69 8) 84)).
Definition NAVMESHSET_VERSION : Z := 1.

Record NavMeshSetHeader := {
  magic : Z;
  version : Z;
  numTiles : Z;
  params : list Byte.byte
}.

Definition decode_set_header (hb : list Byte.byte) : NavMeshSetHeader := {|
  magic := to_int32 (le_value (firstn 4 hb));
  version := to_int32 (le_value (firstn 4 (skipn 4 hb)));
  numTiles := to_int32 (le_value (firstn 4 (skipn 8 hb)));
  params := skipn 12 hb
|}.

Record NavMeshTileHeader := {
  tileRef : Z;
  dataSize : Z
}.

Definition decode_tile_header (tb : list Byte.byte) : NavMeshTileHeader := {|
  tileRef := le_value (firstn 8 tb);
  dataSize := to_int32 (le_value (firstn 4 (skipn 8 tb)))
|}.

(** ** Geometry: host ([carla::geom::Location]) and engine ([float[3]]) points *)

Open Scope Q_scope.

Record Location := { lx : Q; ly : Q; lz : Q }.
Record Vec3 := { v0 : Q; v1 : Q; v2 : Q }.

(** [float p[3] = { l.x, l.z, l.y }]: host to engine. *)
Definition to_engine (l : Location) : Vec3 := {| v0 := lx l; v1 := lz l; v2 := ly l |}.
(** [Location(p[0], p[2], p[1])]: engine to host. *)
Definition to_host (p : Vec3) : Location := {| lx := v0 p; ly := v2 p; lz := v1 p |}.

Close Scope Q_scope.

(** ** Query filters and polygon flags *)

(** [dtQueryFilter]: include and exclude flag sets. *)
Record dtQueryFilter := { includeFlags : Z; excludeFlags : Z }.

(** [dtQueryFilter::passFilter]. *)
Definition passFilter (f : dtQueryFilter) (flags : Z) : bool :=
  negb (Z.land flags (includeFlags f) =? 0) && (Z.land flags (excludeFlags f) =? 0).

(** Modelled from the spec: the [SamplePolyFlags] of Navigation.h (not
    under src/), with a "walkable" bit and a "disabled" bit. *)
Definition SAMPLE_POLYFLAGS_WALK : Z := 1.
Definition SAMPLE_POLYFLAGS_DISABLED : Z := 16.
Definition SAMPLE_POLYFLAGS_ALL : Z := 65535.

(** [filter2] of [GetPath] and [GetRandomLocationWithoutLock]. *)
Definition default_filter : dtQueryFilter := {|
  includeFlags := Z.lxor SAMPLE_POLYFLAGS_ALL SAMPLE_POLYFLAGS_DISABLED;
  excludeFlags := 0
|}.

(** [if (filter == nullptr) filter = &filter2]. *)
Definition effective_filter (filter : option dtQueryFilter) : dtQueryFilter :=
  match filter with Some f => f | None => default_filter end.

(** ** The Detour engine, seen through the operations the façade calls *)

Definition DT_SUCCESS : Z := Z.shiftl 1 30.

Record DetourEngine (Mesh Query : Type) := {
  (** [mesh->init(&header.params)]; [None] when the status failed *)
  dtNavMesh_init : list Byte.byte -> option Mesh;
  (** [mesh->addTile(data, dataSize, DT_TILE_FREE_DATA, tileRef, 0)] *)
  dtNavMesh_addTile : Mesh -> Z -> list Byte.byte -> Mesh;
  (** [dtAlloc(size, DT_ALLOC_PERM) != nullptr] *)
  dtAlloc_ok : Z -> bool;
  (** [dtAllocNavMeshQuery()] followed by [init(mesh, 2048)] *)
  dtNavMeshQuery_init : Mesh -> Query;
  (** [findNearestPoly(center, halfExtents, filter, &ref, ...)]: [ref], 0 if none *)
  findNearestPoly : Query -> Vec3 -> Vec3 -> dtQueryFilter -> Z;
  (** [findPath(startRef, endRef, spos, epos, filter, polys, &npolys, max)] *)
  findPath : Query -> Z -> Z -> Vec3 -> Vec3 -> dtQueryFilter -> Z -> list Z;
  (** [closestPointOnPoly(ref, pos, closest, 0)] *)
  closestPointOnPoly : Query -> Z -> Vec3 -> Vec3;
  (** [findStraightPath(spos, epos, polys, npolys, straight, ..., &n, max, 0)] *)
  findStraightPath : Query -> Vec3 -> Vec3 -> list Z -> Z -> list Vec3;
  (** [findRandomPoint(filter, &frand, &ref, point)] with the state of the
      random source before and after the call *)
  findRandomPoint : Query -> dtQueryFilter -> nat -> Z * Z * Vec3 * nat;
  (** flags of a polygon of the loaded surface *)
  getPolyFlags : Query -> Z -> Z
}.
Arguments dtNavMesh_init {Mesh Query} d _.
Arguments dtNavMesh_addTile {Mesh Query} d _ _ _.
Arguments dtAlloc_ok {Mesh Query} d _.
Arguments dtNavMeshQuery_init {Mesh Query} d _.
Arguments findNearestPoly {Mesh Query} d _ _ _ _.
Arguments findPath {Mesh Query} d _ _ _ _ _ _ _.
Arguments closestPointOnPoly {Mesh Query} d _ _ _.
Arguments findStraightPath {Mesh Query} d _ _ _ _ _.
Arguments findRandomPoint {Mesh Query} d _ _ _.
Arguments getPolyFlags {Mesh Query} d _ _.

(** ** The crowd pool *)

Open Scope Q_scope.

Record dtCrowdAgentParams := {
  radius : Q; height : Q; maxAcceleration : Q; maxSpeed : Q;
  collisionQueryRange : Q; pathOptimizationRange : Q;
  updateFlags : Z; obstacleAvoidanceType : Z; separationWeight : Q
}.

Record dtCrowdAgent := {
  active : bool;
  npos : Vec3;
  vel : Vec3;
  dvel : Vec3;
  aparams : dtCrowdAgentParams;
  targetRef : Z;
  targetPos : Vec3
}.

Definition vzero : Vec3 := {| v0 := 0; v1 := 0; v2 := 0 |}.

Definition params_zero : dtCrowdAgentParams := {|
  radius := 0; height := 0; maxAcceleration := 0; maxSpeed := 0;
  collisionQueryRange := 0; pathOptimizationRange := 0;
  updateFlags := 0; obstacleAvoidanceType := 0; separationWeight := 0 |}.

Definition agent_free : dtCrowdAgent := {|
  active := false; npos := vzero; vel := vzero; dvel := vzero;
  aparams := params_zero; targetRef := 0; targetPos := vzero |}.

Record dtCrowd := {
  agents : list dtCrowdAgent;
  queryHalfExtents : Vec3;
  filter0 : dtQueryFilter
}.

Definition MAX_POLYS : Z := 256.
Definition MAX_AGENTS : nat := 500.
Definition AGENT_RADIUS : Q := 3 # 10.

(** Modelled from the spec (the crowd pool is Detour's [dtCrowd], not
    under src/): [init(maxAgents, maxAgentRadius, nav)] allocates a pool of
    [maxAgents] free slots; [getEditableFilter(0)->setExcludeFlags(DISABLED)]
    installs the base filter of tier 0.  The obstacle avoidance tiers set up
    by [CreateCrowd] do not enter any claim and are left out. *)
Definition dtCrowd_init (maxAgents : nat) (maxAgentRadius : Q) : dtCrowd := {|
  agents := repeat agent_free maxAgents;
  queryHalfExtents := {| v0 := maxAgentRadius * 2; v1 := maxAgentRadius * (3 # 2);
                         v2 := maxAgentRadius * 2 |};
  filter0 := {| includeFlags := SAMPLE_POLYFLAGS_ALL;
                excludeFlags := SAMPLE_POLYFLAGS_DISABLED |}
|}.

(** First free slot of the pool. *)
Fixpoint find_free (ags : list dtCrowdAgent) : option nat :=
  match ags with
  | [] => None
  | a :: ags' => if active a then option_map S (find_free ags') else Some O
  end.

(** Modelled from the spec: [dtCrowd::addAgent(pos, params)] takes the
    first free slot and returns its index, or the sentinel [-1] when the
    pool is at capacity. *)
Definition addAgent (c : dtCrowd) (pos : Vec3) (p : dtCrowdAgentParams) : Z * dtCrowd :=
  match find_free (agents c) with
  | None => ((-1)%Z, c)
  | Some i =>
      let ag := {| active := true; npos := pos; vel := vzero; dvel := vzero;
                   aparams := p; targetRef := 0; targetPos := vzero |} in
      (Z.of_nat i, {| agents := <[i := ag]> (agents c);
                      queryHalfExtents := queryHalfExtents c;
                      filter0 := filter0 c |})
  end.

(** [dtCrowd::getAgent(idx)] reads [m_agents[idx]] without a range check. *)
Definition getAgent (c : dtCrowd) (idx : Z) : Outcome dtCrowdAgent :=
  if (0 <=? idx)%Z then
    match agents c !! Z.to_nat idx with Some a => Ret a | None => UB end
  else UB.

(** Modelled from the spec: [dtCrowd::requestMoveTarget(idx, ref, pos)]
    commits the new target of slot [idx]; false for an index outside the
    pool or a null [ref]. *)
Definition requestMoveTarget (c : dtCrowd) (idx ref : Z) (pos : Vec3) : bool * dtCrowd :=
  if (idx <? 0)%Z || (Z.of_nat (length (agents c)) <=? idx)%Z || (ref =? 0)%Z then (false, c)
  else
    match agents c !! Z.to_nat idx with
    | None => (false, c)
    | Some a =>
        (true, {| agents := <[Z.to_nat idx := {| active := active a; npos := npos a;
                    vel := vel a; dvel := dvel a; aparams := aparams a;
                    targetRef := ref; targetPos := pos |}]> (agents c);
                  queryHalfExtents := queryHalfExtents c; filter0 := filter0 c |})
    end.

Close Scope Q_scope.

(** ** The façade: [carla::nav::Navigation] *)

Section Navigation.

Context {Mesh Query : Type}.
Variable E : DetourEngine Mesh Query.

(** The data members of [Navigation] that the operations read or write. *)
Record Navigation := {
  _navMesh : option Mesh;
  _navQuery : option Query;
  _crowd : option dtCrowd;
  _binaryMesh : list Byte.byte;
  _mappedId : gmap Z Z;
  _baseHeight : gmap Z Q;
  yaw_walkers : gmap Z Q;
  _delta_seconds : Q
}.

Definition set_crowd (st : Navigation) (c : option dtCrowd) : Navigation := {|
  _navMesh := _navMesh st; _navQuery := _navQuery st; _crowd := c;
  _binaryMesh := _binaryMesh st; _mappedId := _mappedId st;
  _baseHeight := _baseHeight st; yaw_walkers := yaw_walkers st;
  _delta_seconds := _delta_seconds st |}.

Definition set_yaw_walkers (st : Navigation) (y : gmap Z Q) : Navigation := {|
  _navMesh := _navMesh st; _navQuery := _navQuery st; _crowd := _crowd st;
  _binaryMesh := _binaryMesh st; _mappedId := _mappedId st;
  _baseHeight := _baseHeight st; yaw_walkers := y;
  _delta_seconds := _delta_seconds st |}.

(** [Navigation::CreateCrowd]: builds the pool once, keeps an existing one. *)
Definition CreateCrowd (c : option dtCrowd) : option dtCrowd :=
  match c with
  | Some c => Some c
  | None => Some (dtCrowd_init MAX_AGENTS AGENT_RADIUS)
  end.

(** The tile loop of [Navigation::Load] (lines 90-121): [n] iterations left,
    [mesh] the surface being built, [pos] the running offset.  [Ret None] is
    [return false], [Ret (Some m)] leaves the loop with surface [m]. *)
Fixpoint load_tiles (n : nat) (content : list Byte.byte) (mesh : Mesh) (pos : Z)
    : Outcome (option Mesh) :=
  match n with
  | O => Ret (Some mesh)
  | S n' =>
      bind_out (read_bytes content pos sizeof_NavMeshTileHeader) (fun tb =>
      let th := decode_tile_header tb in
      let pos := to_ulong (pos + sizeof_NavMeshTileHeader) in
      if Z.of_nat (length content) <=? pos then Ret None
      else if (tileRef th =? 0) || (dataSize th =? 0) then Ret (Some mesh)
      else
        let size := to_ulong (dataSize th) in
        if negb (dtAlloc_ok E size) then Ret (Some mesh)
        else
          bind_out (read_bytes content pos size) (fun data =>
          let pos := to_ulong (pos + size) in
          if Z.of_nat (length content) <? pos then Ret None
          else load_tiles n' content (dtNavMesh_addTile E mesh (tileRef th) data) pos))
  end.

(** [Navigation::Load(const std::vector<uint8_t> content)]: the result and
    the state after the call. *)
Definition Load (st : Navigation) (content : list Byte.byte) : Outcome (bool * Navigation) :=
  bind_out (read_bytes content 0 sizeof_NavMeshSetHeader) (fun hb =>
  let header := decode_set_header hb in
  if negb (magic header =? NAVMESHSET_MAGIC) || negb (version header =? NAVMESHSET_VERSION)
  then Ret (false, st)
  else
    match dtNavMesh_init E (params header) with
    | None => Ret (false, st)
    | Some mesh =>
        bind_out (load_tiles (Z.to_nat (numTiles header)) content mesh sizeof_NavMeshSetHeader)
          (fun r =>
           match r with
           | None => Ret (false, st)
           | Some mesh' =>
               Ret (true, {| _navMesh := Some mesh';
                             _navQuery := Some (dtNavMeshQuery_init E mesh');
                             _crowd := CreateCrowd (_crowd st);
                             _binaryMesh := content;
                             _mappedId := _mappedId st;
                             _baseHeight := _baseHeight st;
                             yaw_walkers := yaw_walkers st;
                             _delta_seconds := _delta_seconds st |})
           end)
    end).

(** [m_polyPickExt = {2, 4, 2}]. *)
Definition polyPickExt : Vec3 := {| v0 := 2; v1 := 4; v2 := 2 |}.

(** Lines 240-243: the end point, clamped to the last polygon of a partial
    corridor ([m_polys[m_npolys-1] != m_endRef]). *)
Definition clamp_end (q : Query) (polys : list Z) (endRef : Z) (epos : Vec3) : Vec3 :=
  match last polys with
  | Some lastRef => if lastRef =? endRef then epos else closestPointOnPoly E q lastRef epos
  | None => epos
  end.

(** [Navigation::GetPath(from, to, filter, path)]: the result and the
    output vector [path] after the call. *)
Definition GetPath (st : Navigation) (from to : Location) (filter : option dtQueryFilter)
    (path : list Location) : Outcome (bool * list Location) :=
  if decide (length (_binaryMesh st) = 0%nat) then Ret (false, path)
  else
    match _navQuery st with
    | None => UB
    | Some q =>
        let f := effective_filter filter in
        let spos := to_engine from in
        let epos := to_engine to in
        let startRef := findNearestPoly E q spos polyPickExt f in
        let endRef := findNearestPoly E q epos polyPickExt f in
        if (startRef =? 0) || (endRef =? 0) then Ret (false, path)
        else
          let polys := findPath E q startRef endRef spos epos f MAX_POLYS in
          if decide (length polys = 0%nat) then Ret (false, path)
          else
            let epos' := clamp_end q polys endRef epos in
            let straight := findStraightPath E q spos epos' polys MAX_POLYS in
            Ret (true, map to_host straight)
    end.

(** ** Walkers *)

Open Scope Q_scope.

(** Detour's [DT_CROWD_*] update flags. *)
Definition DT_CROWD_ANTICIPATE_TURNS : Z := 1.
Definition DT_CROWD_OBSTACLE_AVOIDANCE : Z := 2.
Definition DT_CROWD_SEPARATION : Z := 4.
Definition DT_CROWD_OPTIMIZE_VIS : Z := 8.
Definition DT_CROWD_OPTIMIZE_TOPO : Z := 16.

(** The [dtCrowdAgentParams] that [AddWalker] fills in. *)
Definition walker_params (base_offset : Q) : dtCrowdAgentParams := {|
  radius := AGENT_RADIUS;
  height := base_offset * 2;
  maxAcceleration := 8;
  maxSpeed := 147 # 100;
  collisionQueryRange := AGENT_RADIUS * 12;
  pathOptimizationRange := AGENT_RADIUS * 30;
  updateFlags := Z.lor (Z.lor (Z.lor (Z.lor (Z.lor 0 DT_CROWD_ANTICIPATE_TURNS)
                   DT_CROWD_OPTIMIZE_VIS) DT_CROWD_OPTIMIZE_TOPO)
                   DT_CROWD_OBSTACLE_AVOIDANCE) DT_CROWD_SEPARATION;
  obstacleAvoidanceType := 3;
  separationWeight := 1 # 2
|}.

(** [Navigation::AddWalker(id, from, base_offset)]. *)
Definition AddWalker (st : Navigation) (id : Z) (from : Location) (base_offset : Q)
    : bool * Navigation :=
  match _crowd st with
  | None => (false, st)
  | Some c =>
      let '(index, c') := addAgent c (to_engine from) (walker_params base_offset) in
      if (index =? -1)%Z then (false, set_crowd st (Some c'))
      else (true, {| _navMesh := _navMesh st; _navQuery := _navQuery st;
                     _crowd := Some c'; _binaryMesh := _binaryMesh st;
                     _mappedId := <[id := index]> (_mappedId st);
                     _baseHeight := <[id := base_offset]> (_baseHeight st);
                     yaw_walkers := <[id := 0]> (yaw_walkers st);
                     _delta_seconds := _delta_seconds st |})
  end.

(** [Navigation::SetWalkerTargetIndex(index, to)]. *)
Definition SetWalkerTargetIndex (st : Navigation) (index : Z) (to : Location)
    : Outcome (bool * Navigation) :=
  if (index =? -1)%Z then Ret (false, st)
  else
    match _crowd st, _navQuery st with
    | Some c, Some q =>
        let pointTo := to_engine to in
        let targetRef := findNearestPoly E q pointTo (queryHalfExtents c) (filter0 c) in
        if (targetRef =? 0)%Z then Ret (false, st)
        else
          let '(ok, c') := requestMoveTarget c index targetRef pointTo in
          Ret (ok, set_crowd st (Some c'))
    | _, _ => UB
    end.

(** [Navigation::SetWalkerTarget(id, to)]. *)
Definition SetWalkerTarget (st : Navigation) (id : Z) (to : Location)
    : Outcome (bool * Navigation) :=
  match _mappedId st !! id with
  | None => Ret (false, st)
  | Some index => SetWalkerTargetIndex st index to
  end.

Record Rotation := { pitch : Q; yaw : Q; roll : Q }.
Record Transform := { location : Location; rotation : Rotation }.

(** C's [fmod]: [x - trunc(x / y) * y], exact in IEEE arithmetic. *)
Definition fmodf (x y : Q) : Q :=
  x - inject_Z (Z.quot (Qnum x * Zpos (Qden y)) (Qnum y * Zpos (Qden x))) * y.

(** [static_cast<float>(M_PI)]. *)
Definition M_PI_f : Q := 314159274 # 100000000.

(** [atan2f] of the C math library. *)
Variable atan2f : Q -> Q -> Q.
(** [sqrt] of the C math library. *)
Variable sqrtf : Q -> Q.

(** [Navigation::GetWalkerTransform(id, trans)]: the result, the output
    [trans] and the state after the call. *)
Definition GetWalkerTransform (st : Navigation) (id : Z) (trans : Transform)
    : Outcome (bool * Transform * Navigation) :=
  match _mappedId st !! id with
  | None => Ret (false, trans, st)
  | Some index =>
      if (index =? -1)%Z then Ret (false, trans, st)
      else
        match _crowd st with
        | None => UB
        | Some c =>
            bind_out (getAgent c index) (fun agent =>
            if negb (active agent) then Ret (false, trans, st)
            else
              let baseOffset := default 0 (_baseHeight st !! id) in
              let loc := {| lx := v0 (npos agent); ly := v2 (npos agent);
                            lz := v1 (npos agent) + baseOffset - (8 # 100) |} in
              let yaw_vel := atan2f (v2 (dvel agent)) (v0 (dvel agent)) * (180 / M_PI_f) in
              (* [yaw_walkers[id]]: operator[] reads 0 for a missing key *)
              let prev := default 0 (yaw_walkers st !! id) in
              let shortest_angle := fmodf (yaw_vel - prev + 540) 360 - 180 in
              let rotation_speed := 4 in
              let new_yaw := prev + shortest_angle * rotation_speed * _delta_seconds st in
              let trans' := {| location := loc;
                               rotation := {| pitch := pitch (rotation trans); yaw := new_yaw;
                                              roll := roll (rotation trans) |} |} in
              Ret (true, trans', set_yaw_walkers st (<[id := new_yaw]> (yaw_walkers st))))
        end
  end.

(** [return false] from a function returning [float]. *)
Definition float_of_bool (b : bool) : Q := if b then 1 else 0.

(** [Navigation::GetWalkerSpeed(id)]; it changes no state. *)
Definition GetWalkerSpeed (st : Navigation) (id : Z) : Outcome Q :=
  match _mappedId st !! id with
  | None => Ret (float_of_bool false)
  | Some index =>
      if (index =? -1)%Z then Ret (float_of_bool false)
      else
        match _crowd st with
        | None => UB
        | Some c =>
            bind_out (getAgent c index) (fun agent =>
            let v := vel agent in
            Ret (sqrtf (v0 v * v0 v + v1 v * v1 v + v2 v * v2 v)))
        end
  end.

(** A sequence of [AddWalker] calls, each with its identity, position and
    base offset: the results in order and the final state. *)
Fixpoint AddWalkers (st : Navigation) (ws : list (Z * Location * Q)) : list bool * Navigation :=
  match ws with
  | [] => ([], st)
  | (id, from, base_offset) :: ws' =>
      let '(b, st1) := AddWalker st id from base_offset in
      let '(bs, st2) := AddWalkers st1 ws' in
      (b :: bs, st2)
  end.

(** ** Random location *)

(** The exit test of the sampling loop (line 456). *)
Definition height_ok (maxHeight : Q) (l : Location) : bool :=
  Qeq_bool maxHeight (-1) || (Qle_bool 0 maxHeight && Qle_bool (lz l) maxHeight).

(** The [do ... while (1)] loop of [GetRandomLocationWithoutLock] as a
    big-step relation: [random_loop q f maxHeight r loc loc'] holds when the
    loop started with random state [r] and output [loc] exits with [loc'].
    A run that never exits has no derivation. *)
Inductive random_loop (q : Query) (f : dtQueryFilter) (maxHeight : Q)
    : nat -> Location -> Location -> Prop :=
| rl_found r loc status ref point r' :
    findRandomPoint E q f r = (status, ref, point, r') ->
    status = DT_SUCCESS ->
    height_ok maxHeight (to_host point) = true ->
    random_loop q f maxHeight r loc (to_host point)
| rl_sample_failed r loc loc' status ref point r' :
    findRandomPoint E q f r = (status, ref, point, r') ->
    status <> DT_SUCCESS ->
    random_loop q f maxHeight r' loc loc' ->
    random_loop q f maxHeight r loc loc'
| rl_too_high r loc loc' status ref point r' :
    findRandomPoint E q f r = (status, ref, point, r') ->
    status = DT_SUCCESS ->
    height_ok maxHeight (to_host point) = false ->
    random_loop q f maxHeight r' (to_host point) loc' ->
    random_loop q f maxHeight r loc loc'.

(** [GetRandomLocation(location, maxHeight, filter)] returns [ret] with
    output [loc'] (the lock is not modelled).  With no query object the
    [DEBUG_ASSERT] fails and the call does not return. *)
Definition GetRandomLocation (st : Navigation) (loc : Location) (maxHeight : Q)
    (filter : option dtQueryFilter) (r : nat) (loc' : Location) (ret : bool) : Prop :=
  match _navQuery st with
  | None => False
  | Some q => random_loop q (effective_filter filter) maxHeight r loc loc' /\ ret = true
  end.

Close Scope Q_scope.

(** The pool after [k] successful additions: [MAX_AGENTS] slots, the first
    [k] active and the others free. *)
Definition pool_filled (st : Navigation) (k : nat) : Prop :=
  exists c, _crowd st = Some c /\ length (agents c) = MAX_AGENTS /\
    forall j a, agents c !! j = Some a -> active a = bool_decide (j < k)%nat.

Definition walker_ids (ws : list (Z * Location * Q)) : list Z := map (fun w => w.1.1) ws.

(** The first successful sample from random state [r] has point [p]. *)
Inductive first_success (q : Query) (f : dtQueryFilter) : nat -> Vec3 -> Prop :=
| fs_here r ref p r' :
    findRandomPoint E q f r = (DT_SUCCESS, ref, p, r') -> first_success q f r p
| fs_later r status ref p r' p' :
    findRandomPoint E q f r = (status, ref, p, r') -> status <> DT_SUCCESS ->
    first_success q f r' p' -> first_success q f r p'.

End Navigation.

(** ** Concrete engines and buffers *)

Module Concrete.

(** A surface is the list of its tiles. *)
Definition Surface := list (Z * list Byte.byte).

(** An engine whose surface and query object are the tile list, in which
    every point has polygon 1 near it, corridors are [[1]], the straight
    path is [straight], and the sampler returns the points of [samples]
    in turn (status, polygon, point). *)
Definition engine (straight : list Vec3) (samples : nat -> Z * Z * Vec3)
    : DetourEngine Surface Surface := {|
  dtNavMesh_init := fun _ => Some [];
  dtNavMesh_addTile := fun m ref data => (ref, data) :: m;
  dtAlloc_ok := fun size => (size <? 2 ^ 31)%Z;
  dtNavMeshQuery_init := fun m => m;
  findNearestPoly := fun _ _ _ _ => 1%Z;
  findPath := fun _ _ _ _ _ _ _ => [1%Z];
  closestPointOnPoly := fun _ _ p => p;
  findStraightPath := fun _ _ _ _ _ => straight;
  findRandomPoint := fun _ _ r => let '(s, ref, p) := samples r in (s, ref, p, S r);
  getPolyFlags := fun _ _ => SAMPLE_POLYFLAGS_WALK
|}.

Definition pt (a b c : Q) : Vec3 := {| v0 := a; v1 := b; v2 := c |}.

Definition byte_of_Z (z : Z) : Byte.byte :=
  match Byte.of_N (Z.to_N (z mod 256)) with Some b => b | None => Byte.x00 end.

(** [n] little-endian bytes of [z]. *)
Fixpoint le_bytes (n : nat) (z : Z) : list Byte.byte :=
  match n with
  | O => []
  | S n' => byte_of_Z z :: le_bytes n' (z / 256)
  end.

(** A set header with the right magic and version declaring [k] tiles. *)
Definition set_header (k : Z) : list Byte.byte :=
  le_bytes 4 NAVMESHSET_MAGIC ++ le_bytes 4 NAVMESHSET_VERSION ++ le_bytes 4 k
  ++ repeat Byte.x00 28.

Definition tile_record (ref : Z) (data : list Byte.byte) : list Byte.byte :=
  le_bytes 8 ref ++ le_bytes 4 (Z.of_nat (length data)) ++ data.

(** A set header with the right magic and version declaring [k] tiles,
    with the given mesh parameters. *)
Definition set_header_with (k : Z) (params : list Byte.byte) : list Byte.byte :=
  le_bytes 4 NAVMESHSET_MAGIC ++ le_bytes 4 NAVMESHSET_VERSION ++ le_bytes 4 k ++ params.

(** The records of a list of tiles, one after the other. *)
Definition tile_records (ts : list (Z * list Byte.byte)) : list Byte.byte :=
  concat (map (fun t => tile_record t.1 t.2) ts).

(** A tile the loader accepts: a non-null 64-bit reference, a non-empty
    payload whose size fits an [int], and an allocation that succeeds. *)
Definition tile_ok {M Q : Type} (E : DetourEngine M Q) (t : Z * list Byte.byte) : Prop :=
  (0 < t.1 < 2 ^ 64)%Z /\ (0 < Z.of_nat (length t.2) < 2 ^ 31)%Z /\
  dtAlloc_ok E (Z.of_nat (length t.2)) = true.

(** The surface after [addTile] of each tile in turn. *)
Definition add_tiles {M Q : Type} (E : DetourEngine M Q) (mesh : M)
    (ts : list (Z * list Byte.byte)) : M :=
  fold_left (fun m t => dtNavMesh_addTile E m t.1 t.2) ts mesh.

(** The state of a fresh [Navigation]. *)
Definition nav0 : Navigation (Mesh := Surface) (Query := Surface) := {|
  _navMesh := None; _navQuery := None; _crowd := None; _binaryMesh := [];
  _mappedId := ∅; _baseHeight := ∅; yaw_walkers := ∅; _delta_seconds := 0 |}.

(** The state a [Load] leaves behind ([st] when it does not return). *)
Definition after_load {M Q : Type} (E : DetourEngine M Q) (st : Navigation) (buf : list Byte.byte)
    : Navigation :=
  match Load E st buf with Ret (_, s) => s | UB => st end.

(** A well-formed buffer with one tile. *)
Definition one_tile : list Byte.byte := set_header 1 ++ tile_record 7 [Byte.x01; Byte.x02].

(** One tile declared, its record all zeros and ending the buffer. *)
Definition zero_record_at_end : list Byte.byte :=
  Eval vm_compute in set_header 1 ++ tile_record 0 [].

(** One tile declared, the buffer cut after 5 bytes of its tile header. *)
Definition cut_in_tile_header : list Byte.byte :=
  Eval vm_compute in set_header 1 ++ firstn 5 (tile_record 7 [Byte.x01]).

Definition origin : Location := {| lx := 0; ly := 0; lz := 0 |}.

(** A one-walker state: walker [1] added on a fresh crowd, heading 0, no
    tick run yet ([_delta_seconds = 0]). *)
Definition one_walker : Navigation (Mesh := Surface) (Query := Surface) :=
  snd (AddWalker (set_crowd nav0 (Some (dtCrowd_init MAX_AGENTS AGENT_RADIUS)))
         1 origin 1).

(** [one_walker] after some ticks: a stored heading of 30 degrees and a
    tick length of 0.1 s. *)
Definition turning_walker : Navigation (Mesh := Surface) (Query := Surface) := {|
  _navMesh := _navMesh one_walker; _navQuery := _navQuery one_walker;
  _crowd := _crowd one_walker; _binaryMesh := _binaryMesh one_walker;
  _mappedId := _mappedId one_walker; _baseHeight := _baseHeight one_walker;
  yaw_walkers := <[1%Z := 30%Q]> (yaw_walkers one_walker);
  _delta_seconds := (1 # 10)%Q |}.

End Concrete.

(** * Properties *)

Section LoaderFacts.

Context {Mesh Query : Type}.

Lemma read_bytes_short (content : list Byte.byte) (pos n : Z) :
  (Z.of_nat (length content) < pos + n)%Z -> read_bytes content pos n = UB.
Proof.
  intros H. unfold read_bytes.
  destruct (Z.leb_spec (pos + n) (Z.of_nat (length content))); [lia | reflexivity].
Qed.

Lemma read_bytes_fits (content : list Byte.byte) (pos n : Z) :
  (0 <= pos)%Z -> (0 <= n)%Z -> (pos + n <= Z.of_nat (length content))%Z ->
  read_bytes content pos n = Ret (firstn (Z.to_nat n) (skipn (Z.to_nat pos) content)).
Proof.
  intros H1 H2 H3. unfold read_bytes.
  rewrite (proj2 (Z.leb_le _ _) H3), (proj2 (Z.leb_le _ _) H1), (proj2 (Z.leb_le _ _) H2).
  reflexivity.
Qed.

End LoaderFacts.

(** ** C8 *)

(** Claim C8: [Load] copies the file header at offset 0, and each tile
    header at the running offset, before any size check: a buffer shorter
    than the 40-byte set header, or one ending inside the tile header the
    loop is about to read, takes the out-of-range branch ([UB]). *)
Theorem Load_reads_past_end {Mesh Query : Type} :
  (forall (E : DetourEngine Mesh Query) st (content : list Byte.byte),
     (Z.of_nat (length content) < sizeof_NavMeshSetHeader)%Z ->
     Load E st content = UB) /\
  (forall (E : DetourEngine Mesh Query) (n : nat) content mesh pos,
     (pos <= Z.of_nat (length content) < pos + sizeof_NavMeshTileHeader)%Z ->
     load_tiles E (S n) content mesh pos = UB) /\
  (forall (E : DetourEngine Mesh Query) st content mesh,
     let header := decode_set_header (firstn 40 content) in
     magic header = NAVMESHSET_MAGIC -> version header = NAVMESHSET_VERSION ->
     dtNavMesh_init E (params header) = Some mesh ->
     (1 <= numTiles header)%Z ->
     (sizeof_NavMeshSetHeader <= Z.of_nat (length content)
        < sizeof_NavMeshSetHeader + sizeof_NavMeshTileHeader)%Z ->
     Load E st content = UB).
Proof.
  split; [|split].
  - intros E st content H. unfold Load. rewrite read_bytes_short; [reflexivity | lia].
  - intros E n content mesh pos H. simpl. rewrite read_bytes_short; [reflexivity | lia].
  - intros E st content mesh. cbv zeta. intros Hm Hv Hi Hn Hlen. unfold Load.
    rewrite read_bytes_fits by (unfold sizeof_NavMeshSetHeader, sizeof_dtNavMeshParams in *; lia).
    simpl bind_out. change (Z.to_nat 0) with 0%nat.
    change (Z.to_nat sizeof_NavMeshSetHeader) with 40%nat. rewrite skipn_O. cbv zeta.
    simpl in Hm, Hv, Hi, Hn. rewrite Hm, Hv, !Z.eqb_refl. simpl negb. simpl orb. rewrite Hi.
    destruct (Z.to_nat (to_int32 (le_value (take 4 (drop 8 (take 40 content))))))
      as [|k] eqn:Hk; [lia|].
    simpl. rewrite read_bytes_short; [reflexivity|].
    unfold sizeof_NavMeshSetHeader, sizeof_dtNavMeshParams, sizeof_NavMeshTileHeader in *. lia.
Qed.

Lemma Load_reads_past_end_witness :
  let E := Concrete.engine [] (fun _ => (DT_SUCCESS, 1%Z, Concrete.pt 0 0 0)) in
  (Load E Concrete.nav0 [Byte.x4d] = UB) /\
  (load_tiles E 1%nat (Concrete.set_header 1) [] 40%Z = UB) /\
  (Load E Concrete.nav0 Concrete.cut_in_tile_header = UB).
Proof.
  intros E. split; [|split].
  - apply (proj1 Load_reads_past_end). vm_compute. reflexivity.
  - apply (proj1 (proj2 Load_reads_past_end) E 0%nat). vm_compute. split; congruence.
  - apply (proj2 (proj2 Load_reads_past_end) E Concrete.nav0 _ []);
      vm_compute; try split; congruence.
Defined.

(** ** C2 *)

(** Claim C2 (a zero tile record ends tile reading without error, also as
    the last bytes of the buffer): with a valid header declaring one tile
    whose record is all zeros and ends the buffer, [Load] fails.  The size
    check of the tile header, [pos >= content.size()], runs before the zero
    test and rejects a record that ends exactly at the end of the buffer. *)
Theorem Load_zero_record_at_end_fails {Mesh Query : Type}
    (E : DetourEngine Mesh Query) (st : Navigation) (mesh : Mesh) :
  dtNavMesh_init E (repeat Byte.x00 28) = Some mesh ->
  Load E st Concrete.zero_record_at_end = Ret (false, st).
Proof.
  intros Hinit. cbv -[dtNavMesh_init] in Hinit |- *. rewrite Hinit. reflexivity.
Qed.

Lemma Load_zero_record_at_end_fails_witness :
  Load (Concrete.engine [] (fun _ => (DT_SUCCESS, 1%Z, Concrete.pt 0 0 0))) Concrete.nav0
       Concrete.zero_record_at_end = Ret (false, Concrete.nav0).
Proof.
  apply (Load_zero_record_at_end_fails _ _ []). reflexivity.
Defined.

(** ** C3 *)

(** Claim C3 (truncation before the declared end of a tile makes [Load]
    fail cleanly): a valid header declaring one tile followed by only 5 of
    the 12 bytes of the tile header takes the out-of-range branch: the tile
    header is copied before the size check of line 96. *)
Theorem Load_truncated_tile_header_reads_past_end {Mesh Query : Type}
    (E : DetourEngine Mesh Query) (st : Navigation) (mesh : Mesh) :
  dtNavMesh_init E (repeat Byte.x00 28) = Some mesh ->
  Load E st Concrete.cut_in_tile_header = UB.
Proof.
  intros Hinit. cbv -[dtNavMesh_init] in Hinit |- *. rewrite Hinit. reflexivity.
Qed.

Lemma Load_truncated_tile_header_reads_past_end_witness :
  Load (Concrete.engine [] (fun _ => (DT_SUCCESS, 1%Z, Concrete.pt 0 0 0))) Concrete.nav0
       Concrete.cut_in_tile_header = UB.
Proof.
  apply (Load_truncated_tile_header_reads_past_end _ _ []). reflexivity.
Defined.

(** ** GetPath *)

Section GetPathFacts.

Context {Mesh Query : Type}.
Variable E : DetourEngine Mesh Query.

(** The successful run of [GetPath]: the result is the straight path of the
    corridor between the engine-space end points, mapped back to host
    space. *)
Lemma GetPath_success_shape (st : Navigation) (q : Query) (from to : Location)
    (filter : option dtQueryFilter) (path : list Location) :
  _binaryMesh st <> [] -> _navQuery st = Some q ->
  let f := effective_filter filter in
  let startRef := findNearestPoly E q (to_engine from) polyPickExt f in
  let endRef := findNearestPoly E q (to_engine to) polyPickExt f in
  let polys := findPath E q startRef endRef (to_engine from) (to_engine to) f MAX_POLYS in
  startRef <> 0%Z -> endRef <> 0%Z -> polys <> [] ->
  GetPath E st from to filter path =
    Ret (true, map to_host (findStraightPath E q (to_engine from)
                              (clamp_end E q polys endRef (to_engine to)) polys MAX_POLYS)).
Proof.
  intros Hb Hq f startRef endRef polys Hs He Hp. unfold GetPath.
  destruct (decide (length (_binaryMesh st) = 0%nat)) as [Hl|_].
  { destruct (_binaryMesh st); [contradiction | discriminate]. }
  rewrite Hq. fold f startRef endRef polys.
  rewrite (proj2 (Z.eqb_neq _ _) Hs), (proj2 (Z.eqb_neq _ _) He). simpl orb.
  destruct (decide (length polys = 0%nat)) as [Hl|_].
  { destruct polys; [contradiction | discriminate]. }
  reflexivity.
Qed.

End GetPathFacts.

(** ** C1 *)

(** Claim C1, as the code has it: on a loaded surface ([_binaryMesh]
    non-empty, a query object), [GetPath] returns [true] exactly when both
    end polygons are found and the corridor is non-empty, with the straight
    path mapped back to host space as output; when the straight path
    simplification yields no waypoint the output path is the empty sequence
    and the result is still [true].  In every other case (no mesh, a
    missing end polygon, an empty corridor) it returns [false]. *)
Theorem GetPath_empty_straight_path_succeeds {Mesh Query : Type}
    (E : DetourEngine Mesh Query) (st : Navigation) (q : Query) (from to : Location)
    (filter : option dtQueryFilter) (path : list Location) :
  _navQuery st = Some q ->
  let f := effective_filter filter in
  let startRef := findNearestPoly E q (to_engine from) polyPickExt f in
  let endRef := findNearestPoly E q (to_engine to) polyPickExt f in
  let polys := findPath E q startRef endRef (to_engine from) (to_engine to) f MAX_POLYS in
  let straight := findStraightPath E q (to_engine from)
                    (clamp_end E q polys endRef (to_engine to)) polys MAX_POLYS in
  (_binaryMesh st <> [] -> startRef <> 0%Z -> endRef <> 0%Z -> polys <> [] ->
     GetPath E st from to filter path = Ret (true, map to_host straight)) /\
  (_binaryMesh st <> [] -> startRef <> 0%Z -> endRef <> 0%Z -> polys <> [] ->
     straight = [] -> GetPath E st from to filter path = Ret (true, [])) /\
  (_binaryMesh st = [] \/ startRef = 0%Z \/ endRef = 0%Z \/ polys = [] ->
     GetPath E st from to filter path = Ret (false, path)).
Proof.
  intros Hq f startRef endRef polys straight. split; [|split].
  - intros Hb Hs He Hp. exact (GetPath_success_shape E st q from to filter path Hb Hq Hs He Hp).
  - intros Hb Hs He Hp Hsp.
    rewrite (GetPath_success_shape E st q from to filter path Hb Hq Hs He Hp).
    fold f startRef endRef polys straight. rewrite Hsp. reflexivity.
  - intros Hfail. unfold GetPath.
    destruct (decide (length (_binaryMesh st) = 0%nat)) as [|Hl]; [reflexivity|].
    rewrite Hq. fold f startRef endRef polys.
    destruct ((startRef =? 0)%Z || (endRef =? 0)%Z) eqn:Hr; [reflexivity|].
    apply orb_false_iff in Hr as [Hs He]. apply Z.eqb_neq in Hs, He.
    destruct (decide (length polys = 0%nat)) as [|Hp]; [reflexivity|].
    exfalso. destruct Hfail as [Hb | [Hs' | [He' | Hp']]].
    + rewrite Hb in Hl. apply Hl. reflexivity.
    + contradiction.
    + contradiction.
    + rewrite Hp' in Hp. apply Hp. reflexivity.
Qed.

Lemma GetPath_empty_straight_path_succeeds_witness :
  GetPath (Concrete.engine [] (fun _ => (DT_SUCCESS, 1%Z, Concrete.pt 0 0 0)))
    (Concrete.after_load (Concrete.engine [] (fun _ => (DT_SUCCESS, 1%Z, Concrete.pt 0 0 0)))
       Concrete.nav0 Concrete.one_tile)
    Concrete.origin Concrete.origin None [Concrete.origin] = Ret (true, []).
Proof.
  destruct (GetPath_empty_straight_path_succeeds
              (Concrete.engine [] (fun _ => (DT_SUCCESS, 1%Z, Concrete.pt 0 0 0)))
              (Concrete.after_load (Concrete.engine [] (fun _ => (DT_SUCCESS, 1%Z, Concrete.pt 0 0 0)))
                 Concrete.nav0 Concrete.one_tile)
              [(7%Z, [Byte.x01; Byte.x02])] Concrete.origin Concrete.origin None
              [Concrete.origin]) as [_ [Hempty _]].
  - vm_compute. reflexivity.
  - apply Hempty; vm_compute; congruence.
Defined.

(** Claim C1 fails: on a loaded one-tile surface where both end points have
    a polygon and the corridor is [[1]], a straight path of no waypoint
    makes [GetPath] return [true] with an empty path, not [false]. *)
Lemma GetPath_empty_straight_path_counterexample :
  let E := Concrete.engine [] (fun _ => (DT_SUCCESS, 1%Z, Concrete.pt 0 0 0)) in
  let st := Concrete.after_load E Concrete.nav0 Concrete.one_tile in
  Load E Concrete.nav0 Concrete.one_tile = Ret (true, st) /\
  findPath E [(7%Z, [Byte.x01; Byte.x02])] 1 1 (to_engine Concrete.origin)
    (to_engine Concrete.origin) default_filter MAX_POLYS = [1%Z] /\
  GetPath E st Concrete.origin Concrete.origin None [] = Ret (true, []).
Proof. vm_compute. repeat split. Qed.

(** ** C4 *)

(** Claim C4: the axis swap between host and engine space is its own
    inverse, and a successful [GetPath] hands the engine the swapped end
    points and swaps every waypoint back exactly once. *)
Theorem axis_swap_roundtrip :
  (forall l : Location, to_host (to_engine l) = l) /\
  (forall p : Vec3, to_engine (to_host p) = p) /\
  (forall (Mesh Query : Type) (E : DetourEngine Mesh Query) (st : Navigation) (q : Query)
          (from to : Location) (filter : option dtQueryFilter) (path path' : list Location),
     _navQuery st = Some q ->
     GetPath E st from to filter path = Ret (true, path') ->
     let f := effective_filter filter in
     let startRef := findNearestPoly E q (to_engine from) polyPickExt f in
     let endRef := findNearestPoly E q (to_engine to) polyPickExt f in
     let polys := findPath E q startRef endRef (to_engine from) (to_engine to) f MAX_POLYS in
     path' = map to_host (findStraightPath E q (to_engine from)
                            (clamp_end E q polys endRef (to_engine to)) polys MAX_POLYS)).
Proof.
  split; [intros [] ; reflexivity|]. split; [intros []; reflexivity|].
  intros Mesh Query E st q from to filter path path' Hq Hrun f startRef endRef polys.
  unfold GetPath in Hrun.
  destruct (decide (length (_binaryMesh st) = 0%nat)); [discriminate|].
  rewrite Hq in Hrun. fold f startRef endRef polys in Hrun.
  destruct ((startRef =? 0)%Z || (endRef =? 0)%Z); [discriminate|].
  destruct (decide (length polys = 0%nat)); [discriminate|].
  injection Hrun as Hrun. symmetry. exact Hrun.
Qed.

Lemma axis_swap_roundtrip_witness :
  let E := Concrete.engine [Concrete.pt 1 2 3] (fun _ => (DT_SUCCESS, 1%Z, Concrete.pt 0 0 0)) in
  [{| lx := 1; ly := 3; lz := 2 |}] =
    map to_host (findStraightPath E [(7%Z, [Byte.x01; Byte.x02])] (to_engine Concrete.origin)
      (clamp_end E [(7%Z, [Byte.x01; Byte.x02])] [1%Z] 1 (to_engine Concrete.origin))
      [1%Z] MAX_POLYS).
Proof.
  intros E.
  apply (proj2 (proj2 axis_swap_roundtrip) _ _ E
           (Concrete.after_load E Concrete.nav0 Concrete.one_tile)
           [(7%Z, [Byte.x01; Byte.x02])] Concrete.origin Concrete.origin None []);
    vm_compute; reflexivity.
Defined.

(** ** Walker accessors *)


(** ** C6 *)

(** Claim C6: on an identity with no entry in the identity-to-slot map,
    [SetWalkerTarget] and [GetWalkerTransform] return [false] and
    [GetWalkerSpeed] returns its failure value [false]; none of them changes
    the façade state (map, base heights, headings, crowd) or the output
    transform. *)
Theorem unknown_walker_fails_cleanly {Mesh Query : Type} (E : DetourEngine Mesh Query)
    (atan2f : Q -> Q -> Q) (sqrtf : Q -> Q) (st : Navigation) (id : Z) (to : Location)
    (trans : Transform) :
  _mappedId st !! id = None ->
  SetWalkerTarget E st id to = Ret (false, st) /\
  GetWalkerTransform atan2f st id trans = Ret (false, trans, st) /\
  GetWalkerSpeed sqrtf st id = Ret (float_of_bool false).
Proof.
  intros Hid. unfold SetWalkerTarget, GetWalkerTransform, GetWalkerSpeed.
  rewrite Hid. repeat split.
Qed.

Lemma unknown_walker_fails_cleanly_witness :
  let E := Concrete.engine [] (fun _ => (DT_SUCCESS, 1%Z, Concrete.pt 0 0 0)) in
  let tr := {| location := Concrete.origin; rotation := {| pitch := 0; yaw := 0; roll := 0 |} |} in
  SetWalkerTarget E Concrete.one_walker 2 Concrete.origin = Ret (false, Concrete.one_walker) /\
  GetWalkerTransform (fun _ _ => 0%Q) Concrete.one_walker 2 tr = Ret (false, tr, Concrete.one_walker) /\
  GetWalkerSpeed (fun x => x) Concrete.one_walker 2 = Ret (float_of_bool false).
Proof.
  intros E tr. apply unknown_walker_fails_cleanly. vm_compute. reflexivity.
Defined.

(** ** C9 *)

(** Claim C9: [GetWalkerSpeed] returns [0] ([false] converted to [float])
    for an identity that is not mapped or is mapped to slot [-1], and a
    mapped walker whose velocity is zero also gets [0]: the caller cannot
    tell the two apart. *)
Theorem GetWalkerSpeed_failure_is_zero {Mesh Query : Type} (sqrtf : Q -> Q) :
  (sqrtf 0 == 0)%Q ->
  (forall (st : Navigation (Mesh := Mesh) (Query := Query)) (id : Z),
     (_mappedId st !! id = None \/ _mappedId st !! id = Some (-1)%Z) ->
     GetWalkerSpeed sqrtf st id = Ret 0%Q) /\
  (forall (st : Navigation (Mesh := Mesh) (Query := Query)) (id idx : Z) (c : dtCrowd)
          (a : dtCrowdAgent),
     _mappedId st !! id = Some idx -> idx <> (-1)%Z -> _crowd st = Some c ->
     getAgent c idx = Ret a -> vel a = vzero ->
     exists s, GetWalkerSpeed sqrtf st id = Ret s /\ (s == 0)%Q).
Proof.
  intros H0. split.
  - intros st id [Hid | Hid]; unfold GetWalkerSpeed; rewrite Hid; reflexivity.
  - intros st id idx c a Hid Hidx Hc Ha Hv. unfold GetWalkerSpeed.
    rewrite Hid, (proj2 (Z.eqb_neq _ _) Hidx), Hc, Ha. simpl. rewrite Hv.
    eexists. split; [reflexivity|]. simpl. exact H0.
Qed.

Lemma GetWalkerSpeed_failure_is_zero_witness :
  GetWalkerSpeed (fun x => x) Concrete.one_walker 2 = Ret 0%Q /\
  exists s, GetWalkerSpeed (fun x => x) Concrete.one_walker 1 = Ret s /\ (s == 0)%Q.
Proof.
  destruct (GetWalkerSpeed_failure_is_zero (Mesh := Concrete.Surface)
              (Query := Concrete.Surface) (fun x => x)) as [H1 H2]; [reflexivity|].
  split.
  - apply H1. left. vm_compute. reflexivity.
  - eapply (H2 Concrete.one_walker 1 0).
    + reflexivity.
    + discriminate.
    + reflexivity.
    + reflexivity.
    + reflexivity.
Defined.

(** ** C10 *)

Open Scope Q_scope.

(** [fmodf] respects equality of rationals in its first argument. *)
Lemma fmodf_Qeq (x x' y : Q) : x == x' -> fmodf x y == fmodf x' y.
Proof.
  destruct x as [nx dx], x' as [nx' dx'], y as [ny dy].
  unfold Qeq. simpl. intros Hx. unfold fmodf. simpl.
  assert (K : Z.quot (nx * Z.pos dy) (ny * Z.pos dx) = Z.quot (nx' * Z.pos dy) (ny * Z.pos dx')).
  { destruct (Z.eq_dec ny 0%Z) as [->|Hny]; [rewrite !Z.mul_0_l; unfold Z.quot; destruct (nx * Z.pos dy)%Z, (nx' * Z.pos dy)%Z; reflexivity|].
    rewrite <- (Z.quot_mul_cancel_r (nx * Z.pos dy) (ny * Z.pos dx) (Z.pos dx')) by nia.
    rewrite <- (Z.quot_mul_cancel_r (nx' * Z.pos dy) (ny * Z.pos dx') (Z.pos dx)) by nia.
    f_equal; nia. }
  rewrite K. rewrite !Pos2Z.inj_mul. set (k := Z.quot _ _). nia.
Qed.

(** Claim C10, as the code has it: a successful [GetWalkerTransform] reads
    the agent in the walker's own crowd slot and returns the heading
    [prev + shortest_angle * 4 * dt], computed from the stored heading
    [prev] and that agent's velocity heading, and stores it back for that
    walker; every other field of the state and every other walker's stored
    heading are unchanged.  The returned heading is the stored one again
    when [dt = 0] or when the stored heading equals the velocity heading. *)
Theorem GetWalkerTransform_updates_heading {Mesh Query : Type} (atan2f : Q -> Q -> Q)
    (st st' : Navigation (Mesh := Mesh) (Query := Query)) (id : Z) (trans trans' : Transform) :
  GetWalkerTransform atan2f st id trans = Ret (true, trans', st') ->
  exists (index : Z) (c : dtCrowd) (a : dtCrowdAgent),
    _mappedId st !! id = Some index /\ index <> (-1)%Z /\ _crowd st = Some c /\
    getAgent c index = Ret a /\ active a = true /\
    let prev := default 0 (yaw_walkers st !! id) in
    let yaw_vel := atan2f (v2 (dvel a)) (v0 (dvel a)) * (180 / M_PI_f) in
    yaw (rotation trans') = prev + (fmodf (yaw_vel - prev + 540) 360 - 180) * 4 * _delta_seconds st /\
    st' = set_yaw_walkers st (<[id := yaw (rotation trans')]> (yaw_walkers st)) /\
    yaw_walkers st' !! id = Some (yaw (rotation trans')) /\
    (forall id', id' <> id -> yaw_walkers st' !! id' = yaw_walkers st !! id') /\
    (_delta_seconds st == 0 -> yaw (rotation trans') == prev) /\
    (yaw_vel == prev -> yaw (rotation trans') == prev).
Proof.
  unfold GetWalkerTransform. intros Hrun.
  destruct (_mappedId st !! id) as [index|]; [|discriminate].
  destruct (index =? -1)%Z eqn:Hm1; [discriminate|].
  destruct (_crowd st) as [c|]; [|discriminate].
  destruct (getAgent c index) as [a|] eqn:Ha; simpl in Hrun; [|discriminate].
  destruct (active a) eqn:Hact; simpl in Hrun; [|discriminate].
  injection Hrun as <- <-. exists index, c, a.
  split; [reflexivity|]. split; [apply Z.eqb_neq; exact Hm1|].
  split; [reflexivity|]. split; [exact Ha|]. split; [exact Hact|]. simpl.
  split; [reflexivity|]. split; [reflexivity|].
  split; [rewrite lookup_insert_eq; reflexivity|].
  split; [intros id' Hne; rewrite lookup_insert_ne by congruence; reflexivity|].
  split.
  - intros Hdt. rewrite Hdt. ring.
  - intros Hv.
    set (prev := default 0 (yaw_walkers st !! id)) in *.
    set (yv := atan2f (v2 (dvel a)) (v0 (dvel a)) * (180 / M_PI_f)) in *.
    assert (HF : fmodf (yv - prev + 540) 360 == 180).
    { rewrite (fmodf_Qeq (yv - prev + 540) 540 360) by (rewrite Hv; ring).
      reflexivity. }
    rewrite HF. ring.
Qed.

Lemma GetWalkerTransform_updates_heading_witness :
  let tr := {| location := Concrete.origin; rotation := {| pitch := 0; yaw := 0; roll := 0 |} |} in
  let r := GetWalkerTransform (fun _ _ => 1) Concrete.turning_walker 1 tr in
  let tr' := match r with Ret (_, t, _) => t | UB => tr end in
  let st' := match r with Ret (_, _, s) => s | UB => Concrete.turning_walker end in
  ~ (yaw (rotation tr') == 30) /\
  exists (index : Z) (c : dtCrowd) (a : dtCrowdAgent),
    _mappedId Concrete.turning_walker !! 1%Z = Some index /\ index <> (-1)%Z /\
    _crowd Concrete.turning_walker = Some c /\ getAgent c index = Ret a /\ active a = true /\
    let prev := default 0 (yaw_walkers Concrete.turning_walker !! 1%Z) in
    let yaw_vel := (fun _ _ => 1) (v2 (dvel a)) (v0 (dvel a)) * (180 / M_PI_f) in
    yaw (rotation tr') = prev + (fmodf (yaw_vel - prev + 540) 360 - 180) * 4
                                * _delta_seconds Concrete.turning_walker /\
    st' = set_yaw_walkers Concrete.turning_walker
            (<[1%Z := yaw (rotation tr')]> (yaw_walkers Concrete.turning_walker)) /\
    yaw_walkers st' !! 1%Z = Some (yaw (rotation tr')) /\
    (forall id', id' <> 1%Z -> yaw_walkers st' !! id' = yaw_walkers Concrete.turning_walker !! id') /\
    (_delta_seconds Concrete.turning_walker == 0 -> yaw (rotation tr') == prev) /\
    (yaw_vel == prev -> yaw (rotation tr') == prev).
Proof.
  intros tr r tr' st'. split.
  - vm_compute. discriminate.
  - apply (GetWalkerTransform_updates_heading (fun _ _ => 1) Concrete.turning_walker st' 1 tr tr').
    vm_compute. reflexivity.
Defined.

(** Claim C10 fails: before the first tick ([_delta_seconds = 0]) two
    successive [GetWalkerTransform] calls on the same walker, with the same
    agent state, return the same heading (and the stored heading does not
    move).  Here the agent's desired velocity is zero; [atan2f(0, 0) = 0]. *)
Lemma GetWalkerTransform_same_heading_counterexample :
  let tr := {| location := Concrete.origin; rotation := {| pitch := 0; yaw := 0; roll := 0 |} |} in
  match GetWalkerTransform (fun _ _ => 0) Concrete.one_walker 1 tr with
  | Ret (true, tr1, st1) =>
      match GetWalkerTransform (fun _ _ => 0) st1 1 tr1 with
      | Ret (true, tr2, st2) =>
          yaw (rotation tr1) == yaw (rotation tr2) /\
          default 1 (yaw_walkers st2 !! 1%Z) == default 1 (yaw_walkers st1 !! 1%Z)
      | _ => False
      end
  | _ => False
  end.
Proof. vm_compute. split; reflexivity. Qed.

Close Scope Q_scope.

(** ** C5 *)

Section Capacity.

Context {Mesh Query : Type}.


Lemma find_free_first (l : list dtCrowdAgent) (k : nat) :
  (forall j a, l !! j = Some a -> active a = bool_decide (j < k)%nat) ->
  find_free l = if decide (k < length l)%nat then Some k else None.
Proof.
  revert k. induction l as [|a l IH]; intros k Hl; simpl.
  - destruct (decide (k < 0)%nat); [lia | reflexivity].
  - pose proof (Hl 0%nat a eq_refl) as Ha. simpl in Ha.
    destruct k as [|k].
    + rewrite Ha. reflexivity.
    + rewrite Ha. rewrite (IH k).
      * destruct (decide (k < length l)%nat), (decide (S k < S (length l))%nat);
          simpl; try reflexivity; lia.
      * intros j b Hj. rewrite (Hl (S j) b Hj).
        apply bool_decide_ext. lia.
Qed.

Lemma AddWalker_not_full (st : Navigation (Mesh := Mesh) (Query := Query)) (k : nat)
    (id : Z) (from : Location) (base_offset : Q) :
  (k < MAX_AGENTS)%nat -> pool_filled st k ->
  exists st', AddWalker st id from base_offset = (true, st') /\ pool_filled st' (S k) /\
    _mappedId st' = <[id := Z.of_nat k]> (_mappedId st).
Proof.
  intros Hk (c & Hc & Hlen & Hact). unfold AddWalker. rewrite Hc. unfold addAgent.
  rewrite (find_free_first _ k Hact).
  destruct (decide (k < length (agents c))%nat); [|lia].
  assert (Hne : (Z.of_nat k =? -1)%Z = false) by (apply Z.eqb_neq; lia).
  rewrite Hne. eexists. split; [reflexivity|]. split; [|reflexivity].
  eexists. split; [reflexivity|]. simpl. split.
  - rewrite length_insert. exact Hlen.
  - intros j a Hj. destruct (decide (j = k)) as [->|Hjk].
    + rewrite list_lookup_insert_eq in Hj by lia. injection Hj as <-. simpl.
      symmetry. apply bool_decide_eq_true. lia.
    + rewrite list_lookup_insert_ne in Hj by congruence.
      rewrite (Hact j a Hj). apply bool_decide_ext. lia.
Qed.

Lemma AddWalker_full (st : Navigation (Mesh := Mesh) (Query := Query))
    (id : Z) (from : Location) (base_offset : Q) :
  pool_filled st MAX_AGENTS -> AddWalker st id from base_offset = (false, st).
Proof.
  intros (c & Hc & Hlen & Hact). unfold AddWalker. rewrite Hc. unfold addAgent.
  rewrite (find_free_first _ MAX_AGENTS Hact), Hlen.
  destruct (decide (MAX_AGENTS < MAX_AGENTS)%nat); [lia|]. simpl.
  unfold set_crowd. rewrite <- Hc. destruct st; reflexivity.
Qed.


Lemma AddWalkers_from (ws : list (Z * Location * Q))
    (st : Navigation (Mesh := Mesh) (Query := Query)) (k : nat) :
  (k <= MAX_AGENTS)%nat -> pool_filled st k -> NoDup (walker_ids ws) ->
  let '(rs, st') := AddWalkers st ws in
  rs = repeat true (min (length ws) (MAX_AGENTS - k))
       ++ repeat false (length ws - (MAX_AGENTS - k)) /\
  pool_filled st' (min (k + length ws) MAX_AGENTS) /\
  (forall j w, (j < MAX_AGENTS - k)%nat -> ws !! j = Some w ->
     _mappedId st' !! w.1.1 = Some (Z.of_nat (k + j))) /\
  (forall i, i ∉ walker_ids ws -> _mappedId st' !! i = _mappedId st !! i).
Proof.
  revert st k. induction ws as [|[[id from] bo] ws IH]; intros st k Hk Hpool Hnd; simpl.
  - split; [reflexivity|]. split; [|split].
    + replace (min (k + 0) MAX_AGENTS) with k by lia. exact Hpool.
    + intros j w _ Hj. discriminate.
    + intros i _. reflexivity.
  - unfold walker_ids in Hnd. simpl in Hnd. apply NoDup_cons in Hnd as [Hnin Hnd].
    destruct (decide (k < MAX_AGENTS)%nat) as [Hlt|Hge].
    + destruct (AddWalker_not_full st k id from bo Hlt Hpool) as (st1 & Hadd & Hpool1 & Hmap).
      rewrite Hadd.
      specialize (IH st1 (S k) ltac:(lia) Hpool1 Hnd).
      destruct (AddWalkers st1 ws) as [rs st2].
      destruct IH as (Hrs & Hpool2 & Hslots & Hframe).
      split; [|split; [|split]].
      * rewrite Hrs. replace (MAX_AGENTS - k)%nat with (S (MAX_AGENTS - S k)) by lia.
        reflexivity.
      * replace (min (k + S (length ws)) MAX_AGENTS) with (min (S k + length ws) MAX_AGENTS)
          by lia. exact Hpool2.
      * intros [|j] w Hj Hw.
        -- simpl in Hw. injection Hw as <-. simpl.
           rewrite Hframe by exact Hnin. rewrite Hmap, lookup_insert_eq.
           f_equal. lia.
        -- simpl in Hw. rewrite (Hslots j w ltac:(lia) Hw). f_equal. lia.
      * intros i Hi. unfold walker_ids in Hi. simpl in Hi.
        apply not_elem_of_cons in Hi as [Hi1 Hi2].
        rewrite Hframe by exact Hi2. rewrite Hmap, lookup_insert_ne by congruence.
        reflexivity.
    + assert (k = MAX_AGENTS) as -> by lia.
      rewrite (AddWalker_full st id from bo Hpool).
      specialize (IH st MAX_AGENTS ltac:(lia) Hpool Hnd).
      destruct (AddWalkers st ws) as [rs st2].
      destruct IH as (Hrs & Hpool2 & Hslots & Hframe).
      split; [|split; [|split]].
      * rewrite Hrs, !Nat.sub_diag, !Nat.min_0_r, !Nat.sub_0_r. reflexivity.
      * replace (min (MAX_AGENTS + S (length ws)) MAX_AGENTS)
          with (min (MAX_AGENTS + length ws) MAX_AGENTS) by lia. exact Hpool2.
      * intros j w Hj. lia.
      * intros i Hi. unfold walker_ids in Hi. simpl in Hi.
        apply not_elem_of_cons in Hi as [_ Hi2]. apply Hframe. exact Hi2.
Qed.

End Capacity.

Lemma Load_success_crowd {Mesh Query : Type} (E : DetourEngine Mesh Query)
    (st0 st : Navigation) (buf : list Byte.byte) :
  Load E st0 buf = Ret (true, st) -> _crowd st = CreateCrowd (_crowd st0).
Proof.
  unfold Load. destruct (read_bytes buf 0 sizeof_NavMeshSetHeader) as [hb|]; simpl; [|discriminate].
  destruct (_ || _); [discriminate|].
  destruct (dtNavMesh_init E _) as [mesh|]; [|discriminate].
  destruct (load_tiles E _ buf mesh _) as [[mesh'|]|]; simpl; try discriminate.
  intros H. injection H as <-. reflexivity.
Qed.

(** Claim C5: after the first successful [Load] (which builds the crowd
    pool with [MAX_AGENTS = 500] slots), a sequence of [AddWalker] calls
    with distinct identities succeeds for the first 500 calls and fails
    from the 501st on; the walker of call [j < 500] keeps slot [j] in the
    identity-to-slot map and its agent is active in the final state. *)
Theorem AddWalker_capacity {Mesh Query : Type} (E : DetourEngine Mesh Query)
    (st0 st : Navigation) (buf : list Byte.byte) (ws : list (Z * Location * Q)) :
  _crowd st0 = None -> Load E st0 buf = Ret (true, st) -> NoDup (walker_ids ws) ->
  let '(rs, st') := AddWalkers st ws in
  rs = repeat true (min (length ws) MAX_AGENTS) ++ repeat false (length ws - MAX_AGENTS) /\
  forall j w, (j < MAX_AGENTS)%nat -> ws !! j = Some w ->
    _mappedId st' !! w.1.1 = Some (Z.of_nat j) /\
    exists c a, _crowd st' = Some c /\ getAgent c (Z.of_nat j) = Ret a /\ active a = true.
Proof.
  intros Hc0 Hload Hnd.
  assert (Hpool : pool_filled st 0).
  { exists (dtCrowd_init MAX_AGENTS AGENT_RADIUS).
    rewrite (Load_success_crowd E st0 st buf Hload), Hc0. split; [reflexivity|].
    split; [apply repeat_length|].
    intros j a Hj. change (repeat agent_free MAX_AGENTS !! j = Some a) in Hj.
    apply list_elem_of_lookup_2, list_elem_of_In, repeat_spec in Hj. subst a.
    reflexivity. }
  pose proof (AddWalkers_from ws st 0 ltac:(lia) Hpool Hnd) as Hrun.
  destruct (AddWalkers st ws) as [rs st'].
  destruct Hrun as (Hrs & Hpool' & Hslots & _).
  rewrite Nat.sub_0_r in Hrs. split; [exact Hrs|].
  intros j w Hj Hw. split.
  - rewrite (Hslots j w ltac:(lia) Hw). reflexivity.
  - destruct Hpool' as (c & Hc & Hlen & Hact). exists c.
    assert (Hjl : (j < length (agents c))%nat) by lia.
    destruct (lookup_lt_is_Some_2 (agents c) j Hjl) as [a Ha].
    exists a. split; [exact Hc|]. split.
    + unfold getAgent. rewrite Nat2Z.id, Ha.
      destruct (Z.leb_spec 0 (Z.of_nat j)); [reflexivity | lia].
    + rewrite (Hact j a Ha). apply bool_decide_eq_true.
      apply lookup_lt_Some in Hw. lia.
Qed.

Lemma AddWalker_capacity_witness :
  let E := Concrete.engine [] (fun _ => (DT_SUCCESS, 1%Z, Concrete.pt 0 0 0)) in
  let ws := [(1%Z, Concrete.origin, 1%Q); (2%Z, Concrete.origin, 1%Q)] in
  let '(rs, st') := AddWalkers (Concrete.after_load E Concrete.nav0 Concrete.one_tile) ws in
  rs = repeat true (min (length ws) MAX_AGENTS) ++ repeat false (length ws - MAX_AGENTS) /\
  forall j w, (j < MAX_AGENTS)%nat -> ws !! j = Some w ->
    _mappedId st' !! w.1.1 = Some (Z.of_nat j) /\
    exists c a, _crowd st' = Some c /\ getAgent c (Z.of_nat j) = Ret a /\ active a = true.
Proof.
  intros E ws.
  apply (AddWalker_capacity E Concrete.nav0 _ Concrete.one_tile ws).
  - reflexivity.
  - vm_compute. reflexivity.
  - apply (bool_decide_unpack _). vm_compute. reflexivity.
Defined.

(** ** C7 *)

Open Scope Q_scope.

(** Claim C7: when [GetRandomLocation] (no caller filter) returns, it
    returns [true]; with a bound [maxHeight >= 0] the location's vertical
    coordinate is at most the bound; with the sentinel [-1] the location is
    the first successful sample; and in every case the location is a
    successful sample of the engine on a polygon that passes the default
    filter (walkable, not disabled), given the sampler's contract that a
    successful sample lies on a polygon passing the filter it was given. *)
Theorem GetRandomLocation_result {Mesh Query : Type} (E : DetourEngine Mesh Query)
    (st : Navigation) (q : Query) (loc : Location) (maxHeight : Q) (r : nat)
    (loc' : Location) (ret : bool) :
  _navQuery st = Some q ->
  (forall r0 status ref p r1,
     findRandomPoint E q default_filter r0 = (status, ref, p, r1) -> status = DT_SUCCESS ->
     passFilter default_filter (getPolyFlags E q ref) = true) ->
  GetRandomLocation E st loc maxHeight None r loc' ret ->
  ret = true /\
  (0 <= maxHeight -> lz loc' <= maxHeight) /\
  (maxHeight == -1 -> exists p, first_success E q default_filter r p /\ loc' = to_host p) /\
  (exists r0 ref p r1, findRandomPoint E q default_filter r0 = (DT_SUCCESS, ref, p, r1) /\
     loc' = to_host p /\ passFilter default_filter (getPolyFlags E q ref) = true).
Proof.
  intros Hq Hsampler Hrun. unfold GetRandomLocation in Hrun. rewrite Hq in Hrun.
  destruct Hrun as [Hloop ->]. simpl effective_filter in Hloop.
  split; [reflexivity|].
  induction Hloop as [r loc status ref point r' Hs Hok Hh
                     | r loc loc' status ref point r' Hs Hfail Hl IH
                     | r loc loc' status ref point r' Hs Hok Hh Hl IH].
  - split; [|split].
    + intros Hm. unfold height_ok in Hh. apply orb_prop in Hh as [Hm1 | Hm2].
      * apply Qeq_bool_iff in Hm1. exfalso. rewrite Hm1 in Hm. apply Hm. reflexivity.
      * apply andb_prop in Hm2 as [_ Hz]. apply Qle_bool_iff. exact Hz.
    + intros _. exists point. split; [|reflexivity]. subst status. eapply fs_here. exact Hs.
    + exists r, ref, point, r'. subst status. split; [exact Hs|]. split; [reflexivity|].
      exact (Hsampler r DT_SUCCESS ref point r' Hs eq_refl).
  - destruct IH as (IH1 & IH2 & IH3). split; [exact IH1|]. split; [|exact IH3].
    intros Hm. destruct (IH2 Hm) as (p & Hp & ->). exists p. split; [|reflexivity].
    eapply fs_later; eassumption.
  - destruct IH as (IH1 & IH2 & IH3). split; [exact IH1|]. split; [|exact IH3].
    intros Hm. unfold height_ok in Hh. apply Qeq_bool_iff in Hm. rewrite Hm in Hh.
    discriminate.
Qed.

Lemma GetRandomLocation_result_witness :
  let E := Concrete.engine [] (fun _ => (DT_SUCCESS, 1%Z, Concrete.pt 3 (1 # 2) 4)) in
  let st := Concrete.after_load E Concrete.nav0 Concrete.one_tile in
  let q := [(7%Z, [Byte.x01; Byte.x02])] in
  let loc' := to_host (Concrete.pt 3 (1 # 2) 4) in
  true = true /\
  (0 <= 1 -> lz loc' <= 1) /\
  (1 == -1 -> exists p, first_success E q default_filter 0 p /\ loc' = to_host p) /\
  (exists r0 ref p r1, findRandomPoint E q default_filter r0 = (DT_SUCCESS, ref, p, r1) /\
     loc' = to_host p /\ passFilter default_filter (getPolyFlags E q ref) = true).
Proof.
  intros E st q loc'.
  apply (GetRandomLocation_result E st q Concrete.origin 1 0 loc' true).
  - reflexivity.
  - intros r0 status ref p r1 _ _. reflexivity.
  - split; [|reflexivity]. eapply rl_found; reflexivity.
Defined.

Close Scope Q_scope.

(** * Further properties of the code *)

(** ** Load: failure and success *)

(** A failing [Load] leaves the façade state as it was. *)
Theorem Load_failure_keeps_state {Mesh Query : Type} (E : DetourEngine Mesh Query)
    (st st' : Navigation) (content : list Byte.byte) :
  Load E st content = Ret (false, st') -> st' = st.
Proof.
  unfold Load. destruct (read_bytes content 0 sizeof_NavMeshSetHeader) as [hb|]; simpl;
    [|discriminate].
  destruct (_ || _); [congruence|].
  destruct (dtNavMesh_init E _) as [mesh|]; [|congruence].
  destruct (load_tiles E _ content mesh _) as [[mesh'|]|]; simpl; congruence.
Qed.

Lemma Load_failure_keeps_state_witness :
  let E := Concrete.engine [] (fun _ => (DT_SUCCESS, 1%Z, Concrete.pt 0 0 0)) in
  Concrete.one_walker = Concrete.one_walker.
Proof.
  intros E. apply (Load_failure_keeps_state E Concrete.one_walker Concrete.one_walker
                     Concrete.zero_record_at_end).
  vm_compute. reflexivity.
Defined.

(** A successful [Load] keeps the buffer verbatim, installs the new surface
    and a query object built on it, keeps an existing crowd (it is built
    only when there is none), and leaves the walkers' identity map, base
    heights, headings and tick length untouched. *)
Theorem Load_success_commits {Mesh Query : Type} (E : DetourEngine Mesh Query)
    (st st' : Navigation) (content : list Byte.byte) :
  Load E st content = Ret (true, st') ->
  (sizeof_NavMeshSetHeader <= Z.of_nat (length content))%Z /\
  _binaryMesh st' = content /\
  (exists mesh, _navMesh st' = Some mesh /\ _navQuery st' = Some (dtNavMeshQuery_init E mesh)) /\
  _crowd st' = CreateCrowd (_crowd st) /\
  (forall c, _crowd st = Some c -> _crowd st' = Some c) /\
  _mappedId st' = _mappedId st /\ _baseHeight st' = _baseHeight st /\
  yaw_walkers st' = yaw_walkers st /\ _delta_seconds st' = _delta_seconds st.
Proof.
  unfold Load, read_bytes.
  destruct ((0 + sizeof_NavMeshSetHeader <=? Z.of_nat (length content))%Z) eqn:Hlen;
    simpl; [|discriminate].
  destruct (_ || _); [discriminate|].
  destruct (dtNavMesh_init E _) as [mesh|]; [|discriminate].
  destruct (load_tiles E _ content mesh _) as [[mesh'|]|]; simpl; try discriminate.
  intros H. injection H as <-. simpl. apply Z.leb_le in Hlen.
  split; [lia|]. split; [reflexivity|]. split; [eauto|].
  split; [reflexivity|]. split; [intros c ->; reflexivity|]. repeat split.
Qed.

Lemma Load_success_commits_witness :
  let E := Concrete.engine [] (fun _ => (DT_SUCCESS, 1%Z, Concrete.pt 0 0 0)) in
  let st' := Concrete.after_load E Concrete.one_walker Concrete.one_tile in
  (sizeof_NavMeshSetHeader <= Z.of_nat (length Concrete.one_tile))%Z /\
  _binaryMesh st' = Concrete.one_tile /\
  (exists mesh, _navMesh st' = Some mesh /\ _navQuery st' = Some (dtNavMeshQuery_init E mesh)) /\
  _crowd st' = CreateCrowd (_crowd Concrete.one_walker) /\
  (forall c, _crowd Concrete.one_walker = Some c -> _crowd st' = Some c) /\
  _mappedId st' = _mappedId Concrete.one_walker /\
  _baseHeight st' = _baseHeight Concrete.one_walker /\
  yaw_walkers st' = yaw_walkers Concrete.one_walker /\
  _delta_seconds st' = _delta_seconds Concrete.one_walker.
Proof.
  intros E st'. apply (Load_success_commits E Concrete.one_walker st' Concrete.one_tile).
  vm_compute. reflexivity.
Defined.

(** The magic/version gate: a buffer holding a full set header whose magic
    is not ['MSET'] or whose version is not 1 is rejected, with the state
    unchanged, whatever the engine does. *)
Theorem Load_rejects_bad_magic_or_version {Mesh Query : Type} (E : DetourEngine Mesh Query)
    (st : Navigation) (content : list Byte.byte) :
  (sizeof_NavMeshSetHeader <= Z.of_nat (length content))%Z ->
  magic (decode_set_header (firstn 40 content)) <> NAVMESHSET_MAGIC \/
  version (decode_set_header (firstn 40 content)) <> NAVMESHSET_VERSION ->
  Load E st content = Ret (false, st).
Proof.
  intros Hlen Hbad. unfold Load.
  rewrite read_bytes_fits by (unfold sizeof_NavMeshSetHeader, sizeof_dtNavMeshParams in *; lia).
  simpl bind_out. change (Z.to_nat 0) with 0%nat.
  change (Z.to_nat sizeof_NavMeshSetHeader) with 40%nat. rewrite skipn_O. cbv zeta.
  destruct Hbad as [Hm | Hv]; simpl in *.
  - rewrite (proj2 (Z.eqb_neq _ _) Hm). reflexivity.
  - rewrite (proj2 (Z.eqb_neq _ _) Hv), orb_true_r. reflexivity.
Qed.

Lemma Load_rejects_bad_magic_or_version_witness :
  Load (Concrete.engine [] (fun _ => (DT_SUCCESS, 1%Z, Concrete.pt 0 0 0))) Concrete.nav0
       (Byte.x00 :: drop 1 Concrete.one_tile) = Ret (false, Concrete.nav0).
Proof.
  apply Load_rejects_bad_magic_or_version.
  - vm_compute. congruence.
  - left. vm_compute. congruence.
Defined.

(** ** GetPath: failures and the loaded state *)

(** Every failing [GetPath] leaves the caller's output vector untouched
    (it is cleared only on success). *)
Theorem GetPath_failure_keeps_path {Mesh Query : Type} (E : DetourEngine Mesh Query)
    (st : Navigation) (from to : Location) (filter : option dtQueryFilter)
    (path path' : list Location) :
  GetPath E st from to filter path = Ret (false, path') -> path' = path.
Proof.
  unfold GetPath. destruct (decide _); [congruence|].
  destruct (_navQuery st); [|discriminate]. destruct (_ || _); [congruence|].
  destruct (decide _); congruence.
Qed.

Lemma GetPath_failure_keeps_path_witness :
  [Concrete.origin] = [Concrete.origin].
Proof.
  apply (GetPath_failure_keeps_path (Concrete.engine [] (fun _ => (DT_SUCCESS, 1%Z, Concrete.pt 0 0 0)))
           Concrete.nav0 Concrete.origin Concrete.origin None).
  reflexivity.
Defined.

(** After a successful [Load], [GetPath] never reaches the null query
    object: whatever the end points and filter, it returns a result. *)
Theorem GetPath_after_Load_defined {Mesh Query : Type} (E : DetourEngine Mesh Query)
    (st st' : Navigation) (content : list Byte.byte) (from to : Location)
    (filter : option dtQueryFilter) (path : list Location) :
  Load E st content = Ret (true, st') -> GetPath E st' from to filter path <> UB.
Proof.
  unfold Load. destruct (read_bytes content 0 sizeof_NavMeshSetHeader) as [hb|]; simpl;
    [|discriminate].
  destruct (_ || _); [discriminate|].
  destruct (dtNavMesh_init E _) as [mesh|]; [|discriminate].
  destruct (load_tiles E _ content mesh _) as [[mesh'|]|]; simpl; try discriminate.
  intros H. injection H as <-. unfold GetPath. simpl.
  destruct (decide _); [discriminate|]. destruct (_ || _); [discriminate|].
  destruct (decide _); discriminate.
Qed.

Lemma GetPath_after_Load_defined_witness :
  let E := Concrete.engine [] (fun _ => (DT_SUCCESS, 1%Z, Concrete.pt 0 0 0)) in
  GetPath E (Concrete.after_load E Concrete.nav0 Concrete.one_tile)
    Concrete.origin Concrete.origin None [] <> UB.
Proof.
  intros E. apply (GetPath_after_Load_defined E Concrete.nav0 _ Concrete.one_tile).
  vm_compute. reflexivity.
Defined.

(** ** Query filters *)

(** The default filter of [GetPath] and [GetRandomLocation] includes every
    flag but "disabled" and excludes nothing, so it ignores the disabled bit:
    a polygon passes it with or without that bit.  The crowd's filter 0,
    which excludes "disabled", rejects every polygon carrying the bit. *)
Theorem default_filter_ignores_disabled (flags : Z) :
  passFilter default_filter (Z.lor flags SAMPLE_POLYFLAGS_DISABLED)
    = passFilter default_filter flags /\
  passFilter (filter0 (dtCrowd_init MAX_AGENTS AGENT_RADIUS))
    (Z.lor flags SAMPLE_POLYFLAGS_DISABLED) = false.
Proof.
  unfold passFilter. simpl.
  unfold SAMPLE_POLYFLAGS_ALL, SAMPLE_POLYFLAGS_DISABLED; simpl Z.lxor. split.
  - rewrite !Z.land_0_r, Z.land_lor_distr_l. change (Z.land 16 65519) with 0%Z.
    rewrite Z.lor_0_r. reflexivity.
  - rewrite (Z.land_lor_distr_l flags 16 16). change (Z.land 16 16) with 16%Z.
    destruct (Z.eqb_spec (Z.lor (Z.land flags 16) 16) 0) as [H|H].
    + apply Z.lor_eq_0_iff in H. destruct H as [_ H]. discriminate.
    + apply andb_false_r.
Qed.

(** ** Walkers *)

Lemma find_free_free (l : list dtCrowdAgent) (i : nat) :
  find_free l = Some i -> exists a, l !! i = Some a /\ active a = false.
Proof.
  revert i. induction l as [|a l IH]; intros i; simpl; [discriminate|].
  destruct (active a) eqn:Ha.
  - destruct (find_free l) as [j|] eqn:Hf; simpl; [|discriminate].
    intros H. injection H as <-. simpl. apply IH. reflexivity.
  - intros H. injection H as <-. exists a. auto.
Qed.

(** A successful [AddWalker] took a free slot [i] of the crowd, filled it with
    an active agent and mapped the identity to it. *)
Lemma AddWalker_success_slot {Mesh Query : Type} (st st' : Navigation (Mesh := Mesh) (Query := Query))
    (id : Z) (from : Location) (b : Q) :
  AddWalker st id from b = (true, st') ->
  exists c c' i a, _crowd st = Some c /\ _crowd st' = Some c' /\
    find_free (agents c) = Some i /\ agents c' = <[i := a]> (agents c) /\ active a = true /\
    _mappedId st' = <[id := Z.of_nat i]> (_mappedId st) /\
    _baseHeight st' = <[id := b]> (_baseHeight st) /\
    yaw_walkers st' = <[id := 0%Q]> (yaw_walkers st).
Proof.
  unfold AddWalker, addAgent. destruct (_crowd st) as [c|]; [|discriminate].
  destruct (find_free (agents c)) as [i|] eqn:Hf; simpl; [|discriminate].
  destruct (Z.of_nat i =? -1)%Z; [discriminate|].
  intros H. injection H as <-. simpl. do 4 eexists. repeat split; eauto.
Qed.

(** Adding an identity that is already mapped to an active crowd slot takes
    a fresh slot: the identity now names a different agent, the slot it
    named before keeps its agent, still active (it is never released), and
    the walker's base offset and heading are reset to the new call's. *)
Theorem AddWalker_readd_keeps_old_slot {Mesh Query : Type}
    (st st' : Navigation (Mesh := Mesh) (Query := Query))
    (id i : Z) (c : dtCrowd) (a : dtCrowdAgent) (from : Location) (b : Q) :
  _mappedId st !! id = Some i -> _crowd st = Some c ->
  getAgent c i = Ret a -> active a = true ->
  AddWalker st id from b = (true, st') ->
  exists i' c',
    _mappedId st' !! id = Some i' /\ i' <> i /\
    _crowd st' = Some c' /\ getAgent c' i = Ret a /\
    _baseHeight st' !! id = Some b /\ yaw_walkers st' !! id = Some 0%Q.
Proof.
  intros Hid Hc Ha Hact Hadd.
  destruct (AddWalker_success_slot _ _ _ _ _ Hadd)
    as (c0 & c' & j & a' & Hc0 & Hc' & Hf & Ha' & _ & Hm & Hb & Hy).
  rewrite Hc in Hc0. injection Hc0 as <-.
  destruct (find_free_free _ _ Hf) as (aj & Hj & Hjfree).
  unfold getAgent in Ha. destruct (Z.leb_spec 0 i) as [Hi0|]; [|discriminate].
  destruct (agents c !! Z.to_nat i) as [ai|] eqn:Hai; [|discriminate].
  injection Ha as ->.
  assert (Hij : j <> Z.to_nat i) by (intros ->; congruence).
  exists (Z.of_nat j), c'. rewrite Hm, Hb, Hy, !lookup_insert_eq.
  split; [reflexivity|]. split; [lia|]. split; [exact Hc'|].
  split; [|split; reflexivity].
  unfold getAgent. destruct (Z.leb_spec 0 i); [|lia].
  rewrite Ha', list_lookup_insert_ne by congruence. rewrite Hai. reflexivity.
Qed.

Lemma AddWalker_readd_keeps_old_slot_witness :
  let c := default (dtCrowd_init 0 0) (_crowd Concrete.one_walker) in
  let a := match getAgent c 0 with Ret a => a | UB => agent_free end in
  let st' := snd (AddWalker Concrete.one_walker 1 Concrete.origin 2) in
  exists i' c',
    _mappedId st' !! 1%Z = Some i' /\ i' <> 0%Z /\
    _crowd st' = Some c' /\ getAgent c' 0 = Ret a /\
    _baseHeight st' !! 1%Z = Some 2%Q /\ yaw_walkers st' !! 1%Z = Some 0%Q.
Proof.
  intros c a st'.
  apply (AddWalker_readd_keeps_old_slot Concrete.one_walker st' 1 0 c a Concrete.origin 2);
    vm_compute; reflexivity.
Defined.

(** [SetWalkerTarget] changes nothing when it fails; when it succeeds it
    changes only the walker's own crowd slot, and there only the target:
    the non-null polygon that [findNearestPoly] finds near the requested
    point with the crowd's half extents and filter 0, and the point itself
    (in Detour axes).  The crowd's half extents and filter, the identity
    map, base heights, headings, surface and query are never touched. *)
Theorem SetWalkerTarget_frame {Mesh Query : Type} (E : DetourEngine Mesh Query)
    (st st' : Navigation) (id : Z) (to : Location) (ok : bool) :
  SetWalkerTarget E st id to = Ret (ok, st') ->
  (ok = false -> st' = st) /\
  (ok = true ->
   _navMesh st' = _navMesh st /\ _navQuery st' = _navQuery st /\
   _binaryMesh st' = _binaryMesh st /\ _mappedId st' = _mappedId st /\
   _baseHeight st' = _baseHeight st /\ yaw_walkers st' = yaw_walkers st /\
   _delta_seconds st' = _delta_seconds st /\
   exists idx q c c' a, _mappedId st !! id = Some idx /\ _navQuery st = Some q /\
     _crowd st = Some c /\ _crowd st' = Some c' /\ agents c !! Z.to_nat idx = Some a /\
     let ref := findNearestPoly E q (to_engine to) (queryHalfExtents c) (filter0 c) in
     ref <> 0%Z /\
     agents c' = <[Z.to_nat idx := {| active := active a; npos := npos a; vel := vel a;
                    dvel := dvel a; aparams := aparams a; targetRef := ref;
                    targetPos := to_engine to |}]> (agents c) /\
     queryHalfExtents c' = queryHalfExtents c /\ filter0 c' = filter0 c).
Proof.
  unfold SetWalkerTarget, SetWalkerTargetIndex.
  destruct (_mappedId st !! id) as [idx|] eqn:Hid;
    [|intros H; injection H as <- <-; split; [reflexivity | discriminate]].
  destruct (idx =? -1)%Z; [intros H; injection H as <- <-; split; [reflexivity | discriminate]|].
  destruct (_crowd st) as [c|] eqn:Hc; [|discriminate].
  destruct (_navQuery st) as [q|] eqn:Hq; [|discriminate].
  destruct (findNearestPoly E q _ _ _ =? 0)%Z eqn:Href;
    [intros H; injection H as <- <-; split; [reflexivity | discriminate]|].
  unfold requestMoveTarget.
  destruct ((idx <? 0)%Z || _ || _) eqn:Hg.
  { intros H; injection H as <- <-. split; [|discriminate].
    intros _. destruct st; simpl in *; subst; reflexivity. }
  destruct (agents c !! Z.to_nat idx) as [a|] eqn:Ha.
  2:{ intros H; injection H as <- <-. split; [|discriminate].
      intros _. destruct st; simpl in *; subst; reflexivity. }
  intros H; injection H as <- <-. split; [discriminate|]. intros _. simpl.
  do 7 (split; [congruence|]). exists idx, q, c. eexists. exists a.
  split; [reflexivity|]. split; [reflexivity|]. split; [reflexivity|].
  split; [reflexivity|]. split; [exact Ha|]. simpl.
  split; [apply Z.eqb_neq; exact Href|]. repeat split.
Qed.

Lemma SetWalkerTarget_frame_witness :
  let E := Concrete.engine [] (fun _ => (DT_SUCCESS, 1%Z, Concrete.pt 0 0 0)) in
  let st := Concrete.after_load E Concrete.one_walker Concrete.one_tile in
  let st' := match SetWalkerTarget E st 1 Concrete.origin with
             | Ret (_, s) => s | UB => st end in
  (true = false -> st' = st) /\
  (true = true ->
   _navMesh st' = _navMesh st /\ _navQuery st' = _navQuery st /\
   _binaryMesh st' = _binaryMesh st /\ _mappedId st' = _mappedId st /\
   _baseHeight st' = _baseHeight st /\ yaw_walkers st' = yaw_walkers st /\
   _delta_seconds st' = _delta_seconds st /\
   exists idx q c c' a, _mappedId st !! 1%Z = Some idx /\ _navQuery st = Some q /\
     _crowd st = Some c /\ _crowd st' = Some c' /\ agents c !! Z.to_nat idx = Some a /\
     let ref := findNearestPoly E q (to_engine Concrete.origin) (queryHalfExtents c) (filter0 c) in
     ref <> 0%Z /\
     agents c' = <[Z.to_nat idx := {| active := active a; npos := npos a; vel := vel a;
                    dvel := dvel a; aparams := aparams a; targetRef := ref;
                    targetPos := to_engine Concrete.origin |}]> (agents c) /\
     queryHalfExtents c' = queryHalfExtents c /\ filter0 c' = filter0 c).
Proof.
  intros E st st'. apply (SetWalkerTarget_frame E st st' 1 Concrete.origin true).
  vm_compute. reflexivity.
Defined.

(** ** Heading arithmetic *)

(** [fmodf x 360] of a non-negative [x] lies in [[0, 360)]. *)
Lemma fmodf_360_range (x : Q) :
  (0 <= x)%Q -> (0 <= fmodf x 360 /\ fmodf x 360 < 360)%Q.
Proof.
  destruct x as [n d]. unfold fmodf, Qle, Qlt. simpl. intros Hn.
  rewrite Z.mul_1_r in Hn |- *. rewrite Z.mul_1_r.
  rewrite Z.quot_div_nonneg by lia. rewrite !Z.mul_1_r, !Pos.mul_1_r.
  pose proof (Z.mul_div_le n (360 * Z.pos d) ltac:(lia)) as H1.
  pose proof (Z.mul_succ_div_gt n (360 * Z.pos d) ltac:(lia)) as H2.
  set (k := n / (360 * Z.pos d)) in *.
  split; nia.
Qed.

(** With an [atan2f] that never returns less than [-M_PI_f], a tick length
    [_delta_seconds >= 0] and a stored heading of at most 360 degrees, one
    [GetWalkerTransform] turns the walker by at most [720 * _delta_seconds]
    degrees ([rotation_speed = 4] times a shortest angle in [[-180, 180)]),
    and stores the heading it returns. *)
Theorem GetWalkerTransform_heading_step (atan2f : Q -> Q -> Q) {Mesh Query : Type}
    (st st' : Navigation (Mesh := Mesh) (Query := Query)) (id : Z) (trans trans' : Transform) :
  (forall y x, - M_PI_f <= atan2f y x)%Q ->
  (0 <= _delta_seconds st)%Q ->
  (default 0%Q (yaw_walkers st !! id) <= 360)%Q ->
  GetWalkerTransform atan2f st id trans = Ret (true, trans', st') ->
  (default 0%Q (yaw_walkers st !! id) - 720 * _delta_seconds st <= yaw (rotation trans') <=
   default 0%Q (yaw_walkers st !! id) + 720 * _delta_seconds st)%Q /\
  yaw_walkers st' !! id = Some (yaw (rotation trans')).
Proof.
  intros Hatan Hdt Hprev. unfold GetWalkerTransform.
  destruct (_mappedId st !! id) as [index|]; [|discriminate].
  destruct (index =? -1)%Z; [discriminate|].
  destruct (_crowd st) as [c|]; [|discriminate].
  destruct (getAgent c index) as [a|]; simpl; [|discriminate].
  destruct (active a); simpl; [|discriminate].
  intros H. injection H as <- <-. simpl.
  set (prev := default 0%Q (yaw_walkers st !! id)) in *.
  set (A := atan2f (v2 (dvel a)) (v0 (dvel a))).
  assert (HA : (-180 <= A * (180 / M_PI_f))%Q).
  { apply Qle_trans with (- M_PI_f * (180 / M_PI_f))%Q.
    - apply Qle_bool_imp_le. vm_compute. reflexivity.
    - apply Qmult_le_compat_r; [apply Hatan | apply Qle_bool_imp_le; vm_compute; reflexivity]. }
  destruct (fmodf_360_range (A * (180 / M_PI_f) - prev + 540)) as [F0 F1]; [lra|].
  split; [split; nra|]. rewrite lookup_insert_eq. reflexivity.
Qed.

Lemma GetWalkerTransform_heading_step_witness :
  let tr := {| location := Concrete.origin; rotation := {| pitch := 0; yaw := 0; roll := 0 |} |} in
  let r := GetWalkerTransform (fun _ _ => 1%Q) Concrete.turning_walker 1 tr in
  let tr' := match r with Ret (_, t, _) => t | UB => tr end in
  let st' := match r with Ret (_, _, s) => s | UB => Concrete.turning_walker end in
  ~ (yaw (rotation tr') == 30)%Q /\
  (default 0%Q (yaw_walkers Concrete.turning_walker !! 1%Z)
     - 720 * _delta_seconds Concrete.turning_walker <= yaw (rotation tr') <=
   default 0%Q (yaw_walkers Concrete.turning_walker !! 1%Z)
     + 720 * _delta_seconds Concrete.turning_walker)%Q /\
  yaw_walkers st' !! 1%Z = Some (yaw (rotation tr')).
Proof.
  intros tr r tr' st'. split; [vm_compute; discriminate|].
  apply (GetWalkerTransform_heading_step (fun _ _ => 1%Q) Concrete.turning_walker st' 1 tr tr').
  - intros _ _. apply Qle_bool_imp_le. vm_compute. reflexivity.
  - apply Qle_bool_imp_le. vm_compute. reflexivity.
  - apply Qle_bool_imp_le. vm_compute. reflexivity.
  - vm_compute. reflexivity.
Defined.

(** ** Random location *)

(** [GetRandomLocation] never returns when its loop cannot exit: for a
    negative bound other than [-1] (line 456 accepts no sample then), or
    when the query object fails every sample (no polygon passes the
    filter). *)
Theorem GetRandomLocation_never_returns {Mesh Query : Type} (E : DetourEngine Mesh Query)
    (st : Navigation) (loc : Location) (maxHeight : Q) (filter : option dtQueryFilter)
    (r : nat) (loc' : Location) (ret : bool) :
  ((maxHeight < 0)%Q /\ ~ (maxHeight == -1)%Q) \/
  (forall q r, _navQuery st = Some q ->
     fst (fst (fst (findRandomPoint E q (effective_filter filter) r))) <> DT_SUCCESS) ->
  ~ GetRandomLocation E st loc maxHeight filter r loc' ret.
Proof.
  intros Hcase. unfold GetRandomLocation.
  destruct (_navQuery st) as [q|] eqn:Hq; [|tauto]. intros [Hl _].
  induction Hl as [r loc status ref point r' Hf Hs Hok
                  | r loc loc' status ref point r' Hf Hs Hl IH
                  | r loc loc' status ref point r' Hf Hs Hok Hl IH]; try exact IH.
  destruct Hcase as [[Hneg Hm1] | Hfail].
  - unfold height_ok in Hok.
    assert (Qeq_bool maxHeight (-1) = false) as E1.
    { destruct (Qeq_bool maxHeight (-1)) eqn:He; [|reflexivity].
      apply Qeq_bool_iff in He. contradiction. }
    assert (Qle_bool 0 maxHeight = false) as E2.
    { destruct (Qle_bool 0 maxHeight) eqn:He; [|reflexivity].
      apply Qle_bool_iff in He. lra. }
    rewrite E1, E2 in Hok. discriminate.
  - apply (Hfail q r eq_refl). rewrite Hf. exact Hs.
Qed.

Lemma GetRandomLocation_never_returns_witness :
  let E := Concrete.engine [] (fun _ => (DT_SUCCESS, 1%Z, Concrete.pt 0 0 0)) in
  ~ GetRandomLocation E (Concrete.after_load E Concrete.nav0 Concrete.one_tile)
      Concrete.origin (-2) None 0 Concrete.origin true.
Proof.
  intros E. apply GetRandomLocation_never_returns. left. split.
  - vm_compute. reflexivity.
  - intros H. vm_compute in H. discriminate.
Defined.


(** ** The binary format: encoding and decoding *)

Lemma byte_val_byte_of_Z (z : Z) : byte_val (Concrete.byte_of_Z z) = (z mod 256)%Z.
Proof.
  unfold byte_val, Concrete.byte_of_Z. pose proof (Z.mod_pos_bound z 256 ltac:(lia)).
  destruct (Byte.of_N (Z.to_N (z mod 256))) as [b|] eqn:Hb.
  - apply Byte.to_of_N in Hb. rewrite Hb. lia.
  - apply Byte.of_N_None_iff in Hb. lia.
Qed.

Lemma length_le_bytes (n : nat) (z : Z) : length (Concrete.le_bytes n z) = n.
Proof. revert z. induction n; intros z; simpl; auto. Qed.

Lemma le_value_le_bytes (n : nat) (z : Z) :
  le_value (Concrete.le_bytes n z) = (z mod 256 ^ Z.of_nat n)%Z.
Proof.
  revert z. induction n as [|n IH]; intros z; simpl Concrete.le_bytes; simpl le_value.
  - rewrite Z.mod_1_r. reflexivity.
  - rewrite IH, byte_val_byte_of_Z, Nat2Z.inj_succ, Z.pow_succ_r by lia.
    rewrite Z.rem_mul_r by lia. reflexivity.
Qed.

Lemma length_tile_record (r : Z) (d : list Byte.byte) :
  length (Concrete.tile_record r d) = (12 + length d)%nat.
Proof. unfold Concrete.tile_record. rewrite !length_app, !length_le_bytes. lia. Qed.

(** One accepted tile record at position [length pre]: the loop adds it and
    moves past it. *)
Lemma load_tiles_step {Mesh Query : Type} (E : DetourEngine Mesh Query)
    (n : nat) (pre rest : list Byte.byte) (r : Z) (d : list Byte.byte) (mesh : Mesh) :
  Concrete.tile_ok E (r, d) ->
  (Z.of_nat (length (pre ++ Concrete.tile_record r d ++ rest)) < ulong_mod)%Z ->
  load_tiles E (S n) (pre ++ Concrete.tile_record r d ++ rest) mesh (Z.of_nat (length pre)) =
  load_tiles E n ((pre ++ Concrete.tile_record r d) ++ rest) (dtNavMesh_addTile E mesh r d)
    (Z.of_nat (length (pre ++ Concrete.tile_record r d))).
Proof.
  intros (Hr & Hd & Ha) Hbound. simpl in Hr, Hd, Ha.
  set (L := Z.of_nat (length d)) in *.
  set (hdr := Concrete.le_bytes 8 r ++ Concrete.le_bytes 4 L).
  assert (Hhl : length hdr = 12%nat) by (unfold hdr; rewrite length_app, !length_le_bytes; lia).
  assert (Hc : pre ++ Concrete.tile_record r d ++ rest = (pre ++ hdr) ++ d ++ rest)
    by (unfold Concrete.tile_record, hdr; rewrite <- !app_assoc; reflexivity).
  rewrite <- app_assoc, Hc. rewrite Hc in Hbound.
  assert (Hlen : length ((pre ++ hdr) ++ d ++ rest)
                 = (length pre + 12 + length d + length rest)%nat)
    by (rewrite !length_app, Hhl; lia).
  rewrite Hlen in Hbound. unfold ulong_mod in Hbound.
  rewrite length_app, length_tile_record.
  simpl load_tiles. unfold read_bytes at 1. rewrite Hlen.
  unfold sizeof_NavMeshTileHeader.
  rewrite (proj2 (Z.leb_le _ _)) by lia. rewrite (proj2 (Z.leb_le 0 _)) by lia.
  rewrite (proj2 (Z.leb_le 0 (8 + 4))) by lia.
  simpl bind_out.
  replace (Z.to_nat (Z.of_nat (length pre))) with (length pre) by lia.
  rewrite <- (app_assoc pre hdr), drop_app_length.
  replace (Z.to_nat (8 + 4)) with (length hdr) by (rewrite Hhl; reflexivity).
  rewrite take_app_length.
  unfold decode_tile_header. simpl tileRef. simpl dataSize. unfold hdr.
  rewrite take_app_length' by (rewrite length_le_bytes; reflexivity).
  rewrite drop_app_length' by (rewrite length_le_bytes; reflexivity).
  rewrite take_ge by (rewrite length_le_bytes; lia).
  rewrite !le_value_le_bytes. simpl Z.of_nat.
  rewrite (Z.mod_small r) by (simpl; lia). rewrite (Z.mod_small L) by (simpl; lia).
  fold hdr.
  unfold to_int32. rewrite (proj2 (Z.ltb_lt L _)) by lia.
  unfold to_ulong, ulong_mod.
  rewrite (Z.mod_small (Z.of_nat (length pre) + (8 + 4))) by lia.
  idtac.
  rewrite (proj2 (Z.leb_gt _ _)) by lia.
  rewrite (proj2 (Z.eqb_neq r 0)) by lia. rewrite (proj2 (Z.eqb_neq L 0)) by lia.
  rewrite (Z.mod_small L) by lia. rewrite Ha. simpl negb. cbv iota.
  unfold read_bytes. rewrite app_assoc, Hlen.
  rewrite (proj2 (Z.leb_le _ _)) by lia.
  rewrite (proj2 (Z.leb_le 0 _)) by lia. rewrite (proj2 (Z.leb_le 0 L)) by lia.
  simpl bind_out.
  replace (Z.to_nat (Z.of_nat (length pre) + (8 + 4))) with (length (pre ++ hdr))
    by (rewrite length_app, Hhl; lia).
  rewrite drop_app_length. replace (Z.to_nat L) with (length d) by (unfold L; lia).
  rewrite take_app_length.
  rewrite (Z.mod_small (Z.of_nat (length pre) + (8 + 4) + L)) by lia.
  cbn [orb]. rewrite (proj2 (Z.ltb_ge _ _)) by lia.
  f_equal. unfold L. lia.
Qed.

(** The loop runs over a sequence of accepted tile records, adding each. *)
Lemma load_tiles_records {Mesh Query : Type} (E : DetourEngine Mesh Query)
    (tiles : list (Z * list Byte.byte)) :
  forall (n : nat) (pre rest : list Byte.byte) (mesh : Mesh),
  Forall (Concrete.tile_ok E) tiles -> (length tiles <= n)%nat ->
  (Z.of_nat (length (pre ++ Concrete.tile_records tiles ++ rest)) < ulong_mod)%Z ->
  load_tiles E n (pre ++ Concrete.tile_records tiles ++ rest) mesh (Z.of_nat (length pre)) =
  load_tiles E (n - length tiles) (pre ++ Concrete.tile_records tiles ++ rest)
    (Concrete.add_tiles E mesh tiles) (Z.of_nat (length (pre ++ Concrete.tile_records tiles))).
Proof.
  induction tiles as [|[r d] ts IH]; intros n pre rest mesh Hok Hn Hb.
  - simpl. rewrite Nat.sub_0_r, app_nil_r. reflexivity.
  - inversion Hok as [|? ? Hrd Hts]; subst.
    destruct n as [|n]; [simpl in Hn; lia|].
    assert (Hc : pre ++ Concrete.tile_records ((r, d) :: ts) ++ rest
                 = pre ++ Concrete.tile_record r d ++ (Concrete.tile_records ts ++ rest))
      by (unfold Concrete.tile_records; simpl; rewrite <- !app_assoc; reflexivity).
    assert (Hp : pre ++ Concrete.tile_records ((r, d) :: ts)
                 = (pre ++ Concrete.tile_record r d) ++ Concrete.tile_records ts)
      by (unfold Concrete.tile_records; simpl; rewrite <- !app_assoc; reflexivity).
    rewrite Hc in Hb |- *. rewrite Hp.
    rewrite (load_tiles_step E n pre _ r d mesh Hrd Hb).
    rewrite (IH n (pre ++ Concrete.tile_record r d) rest _ Hts ltac:(simpl in Hn; lia)).
    + rewrite !app_assoc. reflexivity.
    + rewrite <- app_assoc. exact Hb.
Qed.

Lemma length_set_header_with (k : Z) (params : list Byte.byte) :
  length params = 28%nat -> length (Concrete.set_header_with k params) = 40%nat.
Proof.
  intros Hp. unfold Concrete.set_header_with. rewrite !length_app, !length_le_bytes, Hp.
  reflexivity.
Qed.

Lemma decode_set_header_with (k : Z) (params : list Byte.byte) :
  (0 <= k < 2 ^ 31)%Z ->
  decode_set_header (Concrete.set_header_with k params)
  = {| magic := NAVMESHSET_MAGIC; version := NAVMESHSET_VERSION; numTiles := k;
       params := params |}.
Proof.
  intros Hk. unfold decode_set_header, Concrete.set_header_with.
  rewrite take_app_length' by (rewrite length_le_bytes; reflexivity).
  rewrite drop_app_length' by (rewrite length_le_bytes; reflexivity).
  rewrite take_app_length' by (rewrite length_le_bytes; reflexivity).
  rewrite app_assoc, drop_app_length'
    by (rewrite length_app, !length_le_bytes; reflexivity).
  rewrite take_app_length' by (rewrite length_le_bytes; reflexivity).
  rewrite (app_assoc _ _ params), drop_app_length'
    by (rewrite !length_app, !length_le_bytes; reflexivity).
  rewrite !le_value_le_bytes. f_equal.
  unfold to_int32. simpl Z.of_nat. rewrite Z.mod_small by (simpl; lia).
  rewrite (proj2 (Z.ltb_lt k _)) by lia. reflexivity.
Qed.

(** A buffer starting with a good set header and whose tile loop ends with
    a surface loads successfully with that surface. *)
Lemma Load_good_header {Mesh Query : Type} (E : DetourEngine Mesh Query) (st : Navigation)
    (k : Z) (ps body : list Byte.byte) (mesh0 m : Mesh) :
  length ps = 28%nat -> (0 <= k < 2 ^ 31)%Z -> dtNavMesh_init E ps = Some mesh0 ->
  load_tiles E (Z.to_nat k) (Concrete.set_header_with k ps ++ body) mesh0
    sizeof_NavMeshSetHeader = Ret (Some m) ->
  exists st', Load E st (Concrete.set_header_with k ps ++ body) = Ret (true, st') /\
    _navMesh st' = Some m.
Proof.
  intros Hp Hk Hinit Hloop.
  assert (Hr : read_bytes (Concrete.set_header_with k ps ++ body) 0 sizeof_NavMeshSetHeader
               = Ret (Concrete.set_header_with k ps)).
  { unfold read_bytes. rewrite length_app, (length_set_header_with k ps Hp).
    rewrite (proj2 (Z.leb_le _ _))
      by (unfold sizeof_NavMeshSetHeader, sizeof_dtNavMeshParams; lia).
    cbn [andb Z.leb]. rewrite drop_0.
    change (Z.to_nat sizeof_NavMeshSetHeader) with 40%nat.
    rewrite take_app_length'; [reflexivity|].
    symmetry. apply length_set_header_with. exact Hp. }
  unfold Load. rewrite Hr. unfold bind_out at 1. cbv beta iota zeta.
  rewrite decode_set_header_with by exact Hk. cbn [magic version numTiles params].
  rewrite Z.eqb_refl, Z.eqb_refl. cbn [negb orb]. rewrite Hinit, Hloop. cbn.
  eexists. split; reflexivity.
Qed.

(** The loop stops, with the surface built so far, at a tile header that is
    a zero record or whose payload cannot be allocated, provided at least
    one byte follows that header. *)
Lemma load_tiles_stop {Mesh Query : Type} (E : DetourEngine Mesh Query)
    (n : nat) (pre h more : list Byte.byte) (mesh : Mesh) :
  length h = 12%nat -> more <> [] ->
  (tileRef (decode_tile_header h) =? 0)%Z || (dataSize (decode_tile_header h) =? 0)%Z
    || negb (dtAlloc_ok E (to_ulong (dataSize (decode_tile_header h)))) = true ->
  (Z.of_nat (length (pre ++ h ++ more)) < ulong_mod)%Z ->
  load_tiles E (S n) (pre ++ h ++ more) mesh (Z.of_nat (length pre)) = Ret (Some mesh).
Proof.
  intros Hh Hmore Hstop Hb.
  assert (Hm : (1 <= length more)%nat) by (destruct more; [congruence | simpl; lia]).
  assert (Hlen : length (pre ++ h ++ more) = (length pre + 12 + length more)%nat)
    by (rewrite !length_app, Hh; lia).
  rewrite Hlen in Hb. unfold ulong_mod in Hb.
  assert (Hr : read_bytes (pre ++ h ++ more) (Z.of_nat (length pre)) sizeof_NavMeshTileHeader
               = Ret h).
  { unfold read_bytes. rewrite Hlen. unfold sizeof_NavMeshTileHeader.
    rewrite (proj2 (Z.leb_le _ _)) by lia. rewrite (proj2 (Z.leb_le 0 _)) by lia.
    rewrite (proj2 (Z.leb_le 0 (8 + 4))) by lia. cbn [andb].
    replace (Z.to_nat (Z.of_nat (length pre))) with (length pre) by lia.
    rewrite drop_app_length. replace (Z.to_nat (8 + 4)) with (length h) by (rewrite Hh; reflexivity).
    rewrite take_app_length. reflexivity. }
  simpl load_tiles. rewrite Hr. unfold bind_out at 1. cbv beta iota zeta.
  unfold to_ulong at 1, ulong_mod, sizeof_NavMeshTileHeader. rewrite Hlen.
  rewrite (Z.mod_small (Z.of_nat (length pre) + (8 + 4))) by lia.
  rewrite (proj2 (Z.leb_gt _ _)) by lia.
  unfold decode_tile_header in Hstop. cbn [tileRef dataSize] in Hstop.
  destruct ((le_value (take 8 h) =? 0)%Z || (to_int32 (le_value (take 4 (drop 8 h))) =? 0)%Z);
    [reflexivity|].
  simpl in Hstop. rewrite Hstop. reflexivity.
Qed.

(** Round trip of the binary format: a buffer made of a set header with the
    right magic and version declaring [n] tiles, then [n] tile records each
    with a non-null reference and a non-empty payload that the allocator
    accepts, then any bytes at all, loads successfully, and the surface is
    the initial one with the [n] tiles added in order; the trailing bytes
    are never read. *)
Theorem Load_tile_records_roundtrip {Mesh Query : Type} (E : DetourEngine Mesh Query)
    (st : Navigation) (ps : list Byte.byte) (tiles : list (Z * list Byte.byte))
    (rest : list Byte.byte) (mesh0 : Mesh) :
  length ps = 28%nat -> dtNavMesh_init E ps = Some mesh0 ->
  Forall (Concrete.tile_ok E) tiles -> (Z.of_nat (length tiles) < 2 ^ 31)%Z ->
  (Z.of_nat (length (Concrete.set_header_with (Z.of_nat (length tiles)) ps
                     ++ Concrete.tile_records tiles ++ rest)) < ulong_mod)%Z ->
  exists st',
    Load E st (Concrete.set_header_with (Z.of_nat (length tiles)) ps
               ++ Concrete.tile_records tiles ++ rest) = Ret (true, st') /\
    _navMesh st' = Some (Concrete.add_tiles E mesh0 tiles).
Proof.
  intros Hp Hinit Hok Hn Hb. apply (Load_good_header E st _ ps _ mesh0); [exact Hp | lia | exact Hinit |].
  replace sizeof_NavMeshSetHeader
    with (Z.of_nat (length (Concrete.set_header_with (Z.of_nat (length tiles)) ps)))
    by (rewrite length_set_header_with by exact Hp; reflexivity).
  rewrite Nat2Z.id, load_tiles_records by (auto; lia).
  rewrite Nat.sub_diag. reflexivity.
Qed.

Lemma Load_tile_records_roundtrip_witness :
  let E := Concrete.engine [] (fun _ => (DT_SUCCESS, 1%Z, Concrete.pt 0 0 0)) in
  exists st',
    Load E Concrete.nav0
      (Concrete.set_header_with 2 (repeat Byte.x00 28)
       ++ Concrete.tile_records [(7%Z, [Byte.x01; Byte.x02]); (9%Z, [Byte.x03])]
       ++ [Byte.xff]) = Ret (true, st') /\
    _navMesh st' = Some (Concrete.add_tiles E [] [(7%Z, [Byte.x01; Byte.x02]); (9%Z, [Byte.x03])]).
Proof.
  intros E.
  apply (Load_tile_records_roundtrip E Concrete.nav0 (repeat Byte.x00 28)
           [(7%Z, [Byte.x01; Byte.x02]); (9%Z, [Byte.x03])] [Byte.xff] []).
  - reflexivity.
  - reflexivity.
  - repeat constructor; simpl; lia.
  - simpl. lia.
  - vm_compute. reflexivity.
Defined.

(** The tile loop ends early and successfully: when the set header
    declares more tiles than precede a tile header that is a zero record
    (null reference or zero size) or whose payload cannot be allocated, and
    at least one byte follows that header, the load succeeds with exactly
    the tiles before it; the declared count and the bytes after it are
    ignored. *)
Theorem Load_stops_at_end_record {Mesh Query : Type} (E : DetourEngine Mesh Query)
    (st : Navigation) (ps : list Byte.byte) (k : Z) (tiles : list (Z * list Byte.byte))
    (h more : list Byte.byte) (mesh0 : Mesh) :
  length ps = 28%nat -> dtNavMesh_init E ps = Some mesh0 ->
  Forall (Concrete.tile_ok E) tiles -> (Z.of_nat (length tiles) < k < 2 ^ 31)%Z ->
  length h = 12%nat -> more <> [] ->
  (tileRef (decode_tile_header h) =? 0)%Z || (dataSize (decode_tile_header h) =? 0)%Z
    || negb (dtAlloc_ok E (to_ulong (dataSize (decode_tile_header h)))) = true ->
  (Z.of_nat (length (Concrete.set_header_with k ps ++ Concrete.tile_records tiles ++ h ++ more))
     < ulong_mod)%Z ->
  exists st',
    Load E st (Concrete.set_header_with k ps ++ Concrete.tile_records tiles ++ h ++ more)
      = Ret (true, st') /\
    _navMesh st' = Some (Concrete.add_tiles E mesh0 tiles).
Proof.
  intros Hp Hinit Hok Hk Hh Hmore Hstop Hb.
  apply (Load_good_header E st _ ps _ mesh0); [exact Hp | lia | exact Hinit |].
  replace sizeof_NavMeshSetHeader
    with (Z.of_nat (length (Concrete.set_header_with k ps)))
    by (rewrite length_set_header_with by exact Hp; reflexivity).
  rewrite load_tiles_records by (auto; lia).
  replace (Z.to_nat k - length tiles)%nat with (S (Z.to_nat k - length tiles - 1)) by lia.
  rewrite app_assoc. apply load_tiles_stop; auto.
  rewrite <- app_assoc. exact Hb.
Qed.

Lemma Load_stops_at_end_record_witness :
  let E := Concrete.engine [] (fun _ => (DT_SUCCESS, 1%Z, Concrete.pt 0 0 0)) in
  exists st',
    Load E Concrete.nav0
      (Concrete.set_header_with 3 (repeat Byte.x00 28)
       ++ Concrete.tile_records [(7%Z, [Byte.x01; Byte.x02])]
       ++ repeat Byte.x00 12 ++ [Byte.xff]) = Ret (true, st') /\
    _navMesh st' = Some (Concrete.add_tiles E [] [(7%Z, [Byte.x01; Byte.x02])]).
Proof.
  intros E.
  apply (Load_stops_at_end_record E Concrete.nav0 (repeat Byte.x00 28) 3
           [(7%Z, [Byte.x01; Byte.x02])] (repeat Byte.x00 12) [Byte.xff] []).
  - reflexivity.
  - reflexivity.
  - repeat constructor; simpl; lia.
  - simpl. lia.
  - reflexivity.
  - discriminate.
  - vm_compute. reflexivity.
  - vm_compute. reflexivity.
Defined.
